(** * Resume analyzer: extraction and job matching

    A shallow embedding of [backend/resume_parser.py] and
    [backend/job_matcher.py], and the properties of the profile builder and
    of the match ranker that are proved about it; with them the language
    helper of [backend/language_utils.py] and the parts of
    [backend/ai_analyzer.py] that work without a model.

    Conventions of the embedding.
    - A Python [str] is a [string]; the characters are the ASCII ones, with
      Python's character classes on them ([str.isspace], [\w], [\d],
      [str.lower]).  The Arabic header synonyms of the parser are kept in the
      pattern tables as their UTF-8 bytes; no ASCII text contains them.
    - A Python [float] score is an exact rational of [Q].
    - A public method is a computation in a state and exception monad
      over the object it is called on; a helper that reads no field of its
      object is a function.
    - A pattern of [re] is a term of [Re.regex] written after the pattern's
      text, run by a backtracking matcher with the priorities of [re].
    - A library outside the program (the decoders of documents, the
      language detector, the translator) is a record of functions that a
      property quantifies over; a call of it that raises is a [Raise]. *)

From Stdlib Require Import List Ascii String Bool Arith ZArith QArith Qminmax
  Qround Lia Lqa Permutation Sorted.
Import ListNotations.
Local Open Scope list_scope.
Local Open Scope string_scope.

Set Implicit Arguments.

(** ** Python values *)

Module Py.

Definition NL : ascii := ascii_of_nat 10.
Definition nl : string := String NL "".

Definition between (lo hi : nat) (c : ascii) : bool :=
  (lo <=? nat_of_ascii c)%nat && (nat_of_ascii c <=? hi)%nat.

(** [str.isspace] and the class [\s]: tab to carriage return, the four
    separators 0x1c-0x1f and the space. *)
Definition is_space (c : ascii) : bool := between 9 13 c || between 28 32 c.
Definition is_digit (c : ascii) : bool := between 48 57 c.
Definition is_upper (c : ascii) : bool := between 65 90 c.
Definition is_lower (c : ascii) : bool := between 97 122 c.
Definition is_alpha (c : ascii) : bool := is_upper c || is_lower c.
(** The class [\w]. *)
Definition is_word (c : ascii) : bool :=
  is_alpha c || is_digit c || Ascii.eqb c "_".

Definition lower_char (c : ascii) : ascii :=
  if is_upper c then ascii_of_nat (nat_of_ascii c + 32) else c.

(** [s.lower()] *)
Fixpoint lower (s : string) : string :=
  match s with
  | "" => ""
  | String c s' => String (lower_char c) (lower s')
  end.

(** [needle in hay] *)
Fixpoint contains (needle hay : string) : bool :=
  if prefix needle hay then true
  else match hay with
       | "" => false
       | String _ hay' => contains needle hay'
       end.

Definition is_empty (s : string) : bool :=
  match s with "" => true | _ => false end.

Fixpoint lstrip (s : string) : string :=
  match s with
  | "" => ""
  | String c s' => if is_space c then lstrip s' else s
  end.

Fixpoint rstrip (s : string) : string :=
  match s with
  | "" => ""
  | String c s' =>
      let r := rstrip s' in
      if is_empty r && is_space c then "" else String c r
  end.

(** [s.strip()] *)
Definition strip (s : string) : string := rstrip (lstrip s).

(** [s.split()]: the maximal runs of characters that are not spaces. *)
Fixpoint split_ws (s : string) : list string :=
  match s with
  | "" => []
  | String c s' =>
      if is_space c then split_ws s'
      else match s' with
           | "" => [String c ""]
           | String c' _ =>
               if is_space c' then String c "" :: split_ws s'
               else match split_ws s' with
                    | w :: ws => String c w :: ws
                    | [] => [String c ""]
                    end
           end
  end.

(** [s.split(sep)] for a separator of one character. *)
Fixpoint split_on (sep : ascii) (s : string) : list string :=
  match s with
  | "" => [""]
  | String c s' =>
      if Ascii.eqb c sep then "" :: split_on sep s'
      else match split_on sep s' with
           | p :: ps => String c p :: ps
           | [] => [String c ""]
           end
  end.

(** [sep.join(parts)] *)
Fixpoint join (sep : string) (parts : list string) : string :=
  match parts with
  | [] => ""
  | [p] => p
  | p :: ps => p ++ sep ++ join sep ps
  end.

(** [l[:n]], with Python's reading of a negative bound. *)
Definition slice_to (A : Type) (n : Z) (l : list A) : list A :=
  if (n <? 0)%Z then firstn (Z.to_nat (Z.of_nat (List.length l) + n)) l
  else firstn (Z.to_nat n) l.

(** [int(s)] on a string of decimal digits. *)
Definition int (s : string) : Z :=
  fold_left (fun acc c => (10 * acc + Z.of_nat (nat_of_ascii c - 48))%Z)
            (list_ascii_of_string s) 0%Z.

(** [a / b] on two lengths. *)
Definition truediv (a b : nat) : Q :=
  inject_Z (Z.of_nat a) / inject_Z (Z.of_nat b).

(** [round(x, 1)] of the exact value [x]: to one decimal, ties to the even
    neighbour.  Python rounds the double nearest to [x], which can fall on
    the other side of a tie. *)
Definition round1 (x : Q) : Q :=
  let y := x * 10 in
  let n := Qfloor y in
  let frac := y - inject_Z n in
  let up :=
    match Qcompare frac (1 # 2) with
    | Gt => true
    | Lt => false
    | Eq => Z.odd n
    end in
  inject_Z (if up then n + 1 else n) / 10.

(** Exceptions a call can end with. *)
Inductive exn : Type := ValueError | AttributeError | IndexError.

Inductive outcome (A : Type) : Type :=
| Ok (a : A)
| Raise (e : exn).
Arguments Raise {A} e.

(** A method of an object of state [S]. *)
Definition M (S A : Type) : Type := S -> outcome A * S.

Definition ret {S A} (a : A) : M S A := fun self => (Ok a, self).
Definition raise {S A} (e : exn) : M S A := fun self => (Raise e, self).
Definition bind {S A B} (m : M S A) (f : A -> M S B) : M S B :=
  fun self =>
    match m self with
    | (Ok a, self') => f a self'
    | (Raise e, self') => (Raise e, self')
    end.
Definition get {S} : M S S := fun self => (Ok self, self).
Definition put {S} (s : S) : M S unit := fun _ => (Ok tt, s).

End Py.

Notation "x <- m ;; k" := (Py.bind m (fun x => k))
  (at level 61, m at next level, right associativity).

Import Py.


(** ** The patterns of [re] *)

Module Re.

Inductive regex : Type :=
| Eps
| Cls (p : ascii -> bool)        (* one character of a class *)
| Seq (r1 r2 : regex)
| Alt (r1 r2 : regex)            (* r1|r2 *)
| Star (r : regex)               (* r*, greedy *)
| Lazy (r : regex)               (* r*?, lazy *)
| Opt (r : regex)                (* r?, greedy *)
| Group (n : nat) (r : regex)    (* the n-th capturing group *)
| Ahead (r : regex)              (* (?=r) *)
| WordB                          (* \b *)
| Eos.                           (* $ *)

(** A position of the matcher: the character before it, the text after it
    and the groups captured on the way. *)
Record mstate : Type :=
  { prev : option ascii; rest : string; caps : list (nat * string) }.

Definition word_at (c : option ascii) : bool :=
  match c with Some c => is_word c | None => false end.

Definition next (s : string) : option ascii :=
  match s with "" => None | String c _ => Some c end.

Definition consumed (st st' : mstate) : string :=
  substring 0 (String.length (rest st) - String.length (rest st')) (rest st).

Definition progress (st st' : mstate) : bool :=
  (String.length (rest st') <? String.length (rest st))%nat.

(** The iterations of [r*] from [st], the longest first: [step] matches
    [r] once, and an iteration that takes no character ends the loop.  The
    count [n] is the length of the text left, which no run of iterations
    exceeds. *)
Fixpoint star_loop (A : Type)
    (step : mstate -> (mstate -> option A) -> option A)
    (k : mstate -> option A) (n : nat) (st : mstate) {struct n} : option A :=
  match n with
  | O => k st
  | S n' =>
      match step st
              (fun st' =>
                 if progress st st' then star_loop step k n' st' else None)
      with
      | Some x => Some x
      | None => k st
      end
  end.

(** The iterations of [r*?], the shortest first. *)
Fixpoint lazy_loop (A : Type)
    (step : mstate -> (mstate -> option A) -> option A)
    (k : mstate -> option A) (n : nat) (st : mstate) {struct n} : option A :=
  match k st with
  | Some x => Some x
  | None =>
      match n with
      | O => None
      | S n' =>
          step st
            (fun st' =>
               if progress st st' then lazy_loop step k n' st' else None)
      end
  end.

(** [rmatch r st k]: the first way, in the order in which [re] backtracks,
    of matching [r] at [st] such that [k] accepts the position reached. *)
Fixpoint rmatch (A : Type) (r : regex) (st : mstate)
    (k : mstate -> option A) {struct r} : option A :=
  match r with
  | Eps => k st
  | Cls p =>
      match rest st with
      | String c s' =>
          if p c then k {| prev := Some c; rest := s'; caps := caps st |}
          else None
      | "" => None
      end
  | Seq r1 r2 => rmatch r1 st (fun st' => rmatch r2 st' k)
  | Alt r1 r2 =>
      match rmatch r1 st k with
      | Some x => Some x
      | None => rmatch r2 st k
      end
  | Star r1 => star_loop (rmatch r1) k (String.length (rest st)) st
  | Lazy r1 => lazy_loop (rmatch r1) k (String.length (rest st)) st
  | Opt r1 =>
      match rmatch r1 st k with
      | Some x => Some x
      | None => k st
      end
  | Group n r1 =>
      rmatch r1 st
        (fun st' =>
           k {| prev := prev st'; rest := rest st';
                caps := (n, consumed st st') :: caps st' |})
  | Ahead r1 =>
      match rmatch r1 st (fun _ => Some tt) with
      | Some _ => k st
      | None => None
      end
  | WordB =>
      if xorb (word_at (prev st)) (word_at (next (rest st))) then k st
      else None
  | Eos =>
      if is_empty (rest st) || String.eqb (rest st) nl then k st else None
  end.

(** A match object: [group()], the captured groups, and the text left. *)
Record found : Type :=
  { m_text : string; m_caps : list (nat * string); m_rest : string }.

(** [m.group(n)], [None] for a group that took no part in the match. *)
Definition group (n : nat) (m : found) : option string :=
  match find (fun p => Nat.eqb (fst p) n) (m_caps m) with
  | Some p => Some (snd p)
  | None => None
  end.

(** A match that starts at the head of [s], after the character [pv]. *)
Definition match_at (r : regex) (pv : option ascii) (s : string)
  : option found :=
  let st := {| prev := pv; rest := s; caps := [] |} in
  rmatch r st
    (fun st' =>
       Some {| m_text := consumed st st'; m_caps := caps st';
               m_rest := rest st' |}).

Fixpoint search_from (r : regex) (pv : option ascii) (s : string)
  : option found :=
  match match_at r pv s with
  | Some m => Some m
  | None =>
      match s with
      | "" => None
      | String c s' => search_from r (Some c) s'
      end
  end.

(** [re.search(r, s)]: the leftmost match. *)
Definition search (r : regex) (s : string) : option found :=
  search_from r None s.

Definition matches (r : regex) (s : string) : bool :=
  match search r s with Some _ => true | None => false end.

(** The scans below walk the text once; [skip] counts the characters of the
    last match that are still to pass.  The patterns of this program match
    at least one character; a match of no character is taken as [re] does
    in [sub] and [findall] and as no match in [split]. *)
Fixpoint sub_from (r : regex) (repl : string) (skip : nat)
    (pv : option ascii) (s : string) : string :=
  match s with
  | "" =>
      match match_at r pv "" with
      | Some _ => repl
      | None => ""
      end
  | String c s' =>
      match skip with
      | S k => sub_from r repl k (Some c) s'
      | O =>
          match match_at r pv s with
          | Some m =>
              match String.length (m_text m) with
              | O => repl ++ String c (sub_from r repl 0 (Some c) s')
              | S k => repl ++ sub_from r repl k (Some c) s'
              end
          | None => String c (sub_from r repl 0 (Some c) s')
          end
      end
  end.

(** [re.sub(r, repl, s)] *)
Definition sub (r : regex) (repl s : string) : string :=
  sub_from r repl 0 None s.

Fixpoint findall_from (r : regex) (skip : nat) (pv : option ascii)
    (s : string) : list string :=
  match s with
  | "" =>
      match match_at r pv "" with
      | Some m => [m_text m]
      | None => []
      end
  | String c s' =>
      match skip with
      | S k => findall_from r k (Some c) s'
      | O =>
          match match_at r pv s with
          | Some m =>
              m_text m
                :: findall_from r (Nat.pred (String.length (m_text m)))
                     (Some c) s'
          | None => findall_from r 0 (Some c) s'
          end
      end
  end.

(** [re.findall(r, s)] for a pattern [r] without groups. *)
Definition findall (r : regex) (s : string) : list string :=
  findall_from r 0 None s.

Definition push (c : ascii) (ps : list string) : list string :=
  match ps with
  | p :: ps' => String c p :: ps'
  | [] => [String c ""]
  end.

Fixpoint split_from (r : regex) (skip : nat) (pv : option ascii)
    (s : string) : list string :=
  match s with
  | "" => [""]
  | String c s' =>
      match skip with
      | S k => split_from r k (Some c) s'
      | O =>
          match match_at r pv s with
          | Some m =>
              match String.length (m_text m) with
              | O => push c (split_from r 0 (Some c) s')
              | S k => "" :: split_from r k (Some c) s'
              end
          | None => push c (split_from r 0 (Some c) s')
          end
      end
  end.

(** [re.split(r, s)] for a pattern [r] without groups. *)
Definition split (r : regex) (s : string) : list string :=
  split_from r 0 None s.

(** *** Pattern syntax *)

Definition chr (c : ascii) : regex := Cls (Ascii.eqb c).
(** A character under [re.IGNORECASE]. *)
Definition chri (c : ascii) : regex :=
  Cls (fun x => Ascii.eqb (lower_char x) (lower_char c)).

Fixpoint lit (s : string) : regex :=
  match s with
  | "" => Eps
  | String c s' => Seq (chr c) (lit s')
  end.

Fixpoint liti (s : string) : regex :=
  match s with
  | "" => Eps
  | String c s' => Seq (chri c) (liti s')
  end.

(** [r+] *)
Definition plus (r : regex) : regex := Seq r (Star r).

(** [r{n,}] *)
Fixpoint at_least (n : nat) (r : regex) : regex :=
  match n with
  | O => Star r
  | S n' => Seq r (at_least n' r)
  end.

(** [r1|r2|...] *)
Fixpoint alts (rs : list regex) : regex :=
  match rs with
  | [] => Eps
  | [r] => r
  | r :: rs' => Alt r (alts rs')
  end.

Definition any_of (cs : string) (c : ascii) : bool :=
  existsb (Ascii.eqb c) (list_ascii_of_string cs).

Definition ws : regex := Cls is_space.          (* \s *)
Definition word : regex := Cls is_word.         (* \w *)
Definition digit : regex := Cls is_digit.       (* \d *)
Definition dot_all : regex := Cls (fun _ => true).  (* . under re.DOTALL *)

End Re.


(** ** [backend/resume_parser.py] *)

Module ResumeParser.
Import Re.

Variant spacy_model : Type := en_core_web_sm | ar_core_news_sm.

(** The parser object: the two language models loaded by the constructor,
    [None] for a model that could not be loaded. *)
Record ResumeParser : Type :=
  { nlp_en : option spacy_model; nlp_ar : option spacy_model }.

(** [__init__], over the outcome [load] of the two calls of [spacy.load]. *)
Definition __init__ (load : spacy_model -> option spacy_model)
  : ResumeParser :=
  let en := load en_core_web_sm in
  {| nlp_en := en;
     nlp_ar := match load ar_core_news_sm with
               | Some m => Some m
               | None => en
               end |}.

Record ContactInfo : Type :=
  { email : option string; phone : option string; linkedin : option string }.

(** A dict of an experience or of a project. *)
Record Entry : Type := { title : string; description : option string }.

(** A dict of an education. *)
Record EduEntry : Type := { degree : string; institution : option string }.

Record Profile : Type :=
  { raw_text : string;
    contact_info : ContactInfo;
    name : string;
    summary : string;
    experience : list Entry;
    education : list EduEntry;
    skills : list string;
    languages : list string;
    certifications : list string;
    projects : list Entry }.

(** *** [_clean_text] *)

(** The characters kept by the second substitution: [\w], [\s] and
    [- . , ; : ! ? ( )]; the Arabic ranges of the class hold no ASCII
    character. *)
Definition clean_keep (c : ascii) : bool :=
  is_word c || is_space c || any_of "-.,;:!?()" c.

Definition _clean_text (text : string) : string :=
  let text := Re.sub (plus ws) " " text in
  let text := Re.sub (Cls (fun c => negb (clean_keep c))) "" text in
  strip text.

(** *** [_extract_contact_info] *)

(** [\b[A-Za-z0-9._%+-]+@[A-Za-z0-9.-]+\.[A-Z|a-z]{2,}\b] *)
Definition email_pattern : regex :=
  Seq WordB
   (Seq (plus (Cls (fun c => is_alpha c || is_digit c || any_of "._%+-" c)))
    (Seq (chr "@")
     (Seq (plus (Cls (fun c => is_alpha c || is_digit c || any_of ".-" c)))
      (Seq (chr ".")
       (Seq (at_least 2 (Cls (fun c => is_alpha c || Ascii.eqb c "|")))
            WordB))))).

Definition phone_char (c : ascii) : bool :=
  is_digit c || is_space c || any_of "-()" c.

(** [\+?[\d\s\-\(\)]{10,}] and [[\d\s\-\(\)]{10,}] *)
Definition phone_patterns : list regex :=
  [ Seq (Opt (chr "+")) (at_least 10 (Cls phone_char));
    at_least 10 (Cls phone_char) ].

(** [linkedin\.com/in/[\w\-]+] *)
Definition linkedin_pattern : regex :=
  Seq (lit "linkedin.com/in/")
      (plus (Cls (fun c => is_word c || Ascii.eqb c "-"))).

(** The first pattern of a list that is found in the text, with its
    match. *)
Fixpoint first_found (patterns : list regex) (text : string)
  : option found :=
  match patterns with
  | [] => None
  | p :: ps =>
      match Re.search p text with
      | Some m => Some m
      | None => first_found ps text
      end
  end.

Definition _extract_contact_info (text : string) : ContactInfo :=
  {| email := option_map m_text (Re.search email_pattern text);
     phone := option_map (fun m => strip (m_text m))
                (first_found phone_patterns text);
     linkedin := option_map m_text (Re.search linkedin_pattern text) |}.

(** *** [_extract_name] *)

Definition name_keywords : list string :=
  ["resume"; "cv"; "curriculum"; "vitae"; "experience"; "education";
   "skills"].

Definition has_keyword (line : string) : bool :=
  existsb (fun keyword => contains (lower keyword) (lower line))
          name_keywords.

Fixpoint name_scan (lines : list string) : string :=
  match lines with
  | [] => ""
  | line :: lines' =>
      let line := strip line in
      if negb (is_empty line)
         && (List.length (split_ws line) <=? 4)%nat
      then if negb (has_keyword line) then line else name_scan lines'
      else name_scan lines'
  end.

Definition _extract_name (text : string) : string :=
  let lines := split_on NL text in
  name_scan (slice_to 5 lines).

(** *** Sections *)

Definition nlc : regex := chr NL.
(** [[:\s]*] *)
Definition colons : regex :=
  Star (Cls (fun c => Ascii.eqb c ":" || is_space c)).
(** [[A-Z]] under [re.IGNORECASE] *)
Definition letter : regex := Cls is_alpha.

(** [<header>[:\s]*(.*?)(?=\n\s*\n|\n\s*[A-Z]|$)], with
    [re.IGNORECASE | re.DOTALL] *)
Definition summary_pattern (header : string) : regex :=
  Seq (liti header)
   (Seq colons
    (Seq (Group 1 (Lazy dot_all))
         (Ahead (Alt (Seq nlc (Seq (Star ws) nlc))
                (Alt (Seq nlc (Seq (Star ws) letter))
                     Eos))))).

(** [<header>[:\s]*(.*?)(?=\n\s*\n\s*[A-Z]|$)], with
    [re.IGNORECASE | re.DOTALL] *)
Definition section_pattern (header : string) : regex :=
  Seq (liti header)
   (Seq colons
    (Seq (Group 1 (Lazy dot_all))
         (Ahead (Alt (Seq nlc (Seq (Star ws)
                                (Seq nlc (Seq (Star ws) letter))))
                     Eos)))).

Definition group1 (m : found) : string :=
  match group 1 m with Some s => s | None => "" end.

(** The body captured by the first pattern that is found. *)
Definition first_section (patterns : list regex) (text : string)
  : option string :=
  option_map group1 (first_found patterns text).

Definition summary_patterns : list regex :=
  map summary_pattern ["summary"; "objective"; "profile"; "ملخص"; "الهدف"].

Definition _extract_summary (text : string) : string :=
  match first_section summary_patterns text with
  | Some body => strip body
  | None => ""
  end.

(** *** Records of a section *)

(** The loop shared by [_parse_experience_entries],
    [_parse_education_entries] and [_parse_project_entries]: [current] is
    the open dict, as its first line and the text gathered after it. *)
Definition close (current : option (string * option string))
    (entries : list (string * option string))
  : list (string * option string) :=
  match current with
  | Some e => entries ++ [e]
  | None => entries
  end.

Fixpoint segment (trigger : regex) (lines : list string)
    (current : option (string * option string))
    (entries : list (string * option string))
  : list (string * option string) :=
  match lines with
  | [] => close current entries
  | line :: lines' =>
      let line := strip line in
      if is_empty line then segment trigger lines' None (close current entries)
      else if Re.matches trigger line then
        segment trigger lines' (Some (line, None)) (close current entries)
      else
        match current with
        | Some (head, None) =>
            segment trigger lines' (Some (head, Some line)) entries
        | Some (head, Some body) =>
            segment trigger lines' (Some (head, Some (body ++ " " ++ line)))
              entries
        | None => segment trigger lines' None entries
        end
  end.

Definition words_i (ws : list string) : regex := alts (map liti ws).

(** [(senior|junior|lead|manager|director|engineer|developer|analyst|consultant)] *)
Definition experience_trigger : regex :=
  words_i ["senior"; "junior"; "lead"; "manager"; "director"; "engineer";
           "developer"; "analyst"; "consultant"].

(** [(bachelor|master|phd|diploma|certificate|degree)] *)
Definition education_trigger : regex :=
  words_i ["bachelor"; "master"; "phd"; "diploma"; "certificate"; "degree"].

(** [(project|application|system|platform|website|app)] *)
Definition project_trigger : regex :=
  words_i ["project"; "application"; "system"; "platform"; "website"; "app"].

Definition entry_of (e : string * option string) : Entry :=
  {| title := fst e; description := snd e |}.

Definition edu_entry_of (e : string * option string) : EduEntry :=
  {| degree := fst e; institution := snd e |}.

Definition _parse_experience_entries (exp_text : string) : list Entry :=
  map entry_of (segment experience_trigger (split_on NL exp_text) None []).

Definition _parse_education_entries (edu_text : string) : list EduEntry :=
  map edu_entry_of
      (segment education_trigger (split_on NL edu_text) None []).

Definition _parse_project_entries (proj_text : string) : list Entry :=
  map entry_of (segment project_trigger (split_on NL proj_text) None []).

Definition exp_patterns : list regex :=
  map section_pattern
      ["experience"; "work history"; "employment"; "الخبرة"; "العمل"].

Definition _extract_experience (text : string) : list Entry :=
  match first_section exp_patterns text with
  | Some exp_text => _parse_experience_entries exp_text
  | None => []
  end.

Definition edu_patterns : list regex :=
  map section_pattern ["education"; "academic"; "التعليم"; "الدراسة"].

Definition _extract_education (text : string) : list EduEntry :=
  match first_section edu_patterns text with
  | Some edu_text => _parse_education_entries edu_text
  | None => []
  end.

(** *** Lists of a section *)

(** [[,\n;]], [\s+and\s+] and [\s+&\s+] *)
Definition skill_patterns : list regex :=
  [ Cls (fun c => Ascii.eqb c "," || Ascii.eqb c NL || Ascii.eqb c ";");
    Seq (plus ws) (Seq (lit "and") (plus ws));
    Seq (plus ws) (Seq (chr "&") (plus ws)) ].

(** [[x.strip() for x in l if x.strip()]] *)
Definition stripped (l : list string) : list string :=
  map strip (filter (fun x => negb (is_empty (strip x))) l).

(** The loop over [skill_patterns]: the text is split by the first pattern
    that is found in it. *)
Fixpoint split_first (patterns : list regex) (skills_text : string)
  : list string :=
  match patterns with
  | [] => []
  | p :: ps =>
      if Re.matches p skills_text then stripped (Re.split p skills_text)
      else split_first ps skills_text
  end.

Definition long_words (skills_text : string) : list string :=
  map strip
      (filter (fun word => (2 <? String.length (strip word))%nat)
              (split_ws skills_text)).

Definition _parse_skills_list (skills_text : string) : list string :=
  let skills := split_first skill_patterns skills_text in
  let skills :=
    match skills with
    | [] => long_words skills_text
    | _ => skills
    end in
  slice_to 20 skills.

Definition skills_patterns : list regex :=
  map section_pattern
      ["skills"; "technical skills"; "competencies"; "المهارات"; "الخبرات"].

Definition _extract_skills (text : string) : list string :=
  match first_section skills_patterns text with
  | Some skills_text => _parse_skills_list skills_text
  | None => []
  end.

Definition lang_patterns : list regex :=
  map section_pattern ["languages"; "اللغات"].

Definition _extract_languages (text : string) : list string :=
  match first_section lang_patterns text with
  | Some lang_text => _parse_skills_list lang_text
  | None => []
  end.

Definition cert_patterns : list regex :=
  map section_pattern ["certifications"; "certificates"; "الشهادات"].

Definition _extract_certifications (text : string) : list string :=
  match first_section cert_patterns text with
  | Some cert_text => _parse_skills_list cert_text
  | None => []
  end.

Definition proj_patterns : list regex :=
  map section_pattern ["projects"; "المشاريع"].

Definition _extract_projects (text : string) : list Entry :=
  match first_section proj_patterns text with
  | Some proj_text => _parse_project_entries proj_text
  | None => []
  end.

(** *** [_extract_structure] *)

(** The dict [resume_data] that the method builds. *)
Definition extract_structure (text : string) : Profile :=
  let text := _clean_text text in
  {| raw_text := text;
     contact_info := _extract_contact_info text;
     name := _extract_name text;
     summary := _extract_summary text;
     experience := _extract_experience text;
     education := _extract_education text;
     skills := _extract_skills text;
     languages := _extract_languages text;
     certifications := _extract_certifications text;
     projects := _extract_projects text |}.

(** The method reads no field of the parser and writes none. *)
Definition _extract_structure (text : string) : M ResumeParser Profile :=
  ret (extract_structure text).

(** *** [parse_resume], [_parse_pdf] and [_parse_docx] *)

(** What the libraries outside the parser give for a path:
    [os.path.splitext], the pages of [pdfplumber.open] with the outcome of
    [extract_text] on each, the pages of [fitz.open] with the outcome of
    [get_text] on each, and the texts of the paragraphs of [Document];
    a call that raises is a [Raise]. *)
Record Decoders : Type :=
  { splitext : string -> string * string;
    pdfplumber_pages : string -> outcome (list (outcome (option string)));
    fitz_pages : string -> outcome (list (outcome string));
    docx_paragraphs : string -> outcome (list string) }.

(** The loop over the pages of [pdfplumber], inside its [try]: a page
    without text adds nothing, and the text gathered before a page that
    raises is kept. *)
Fixpoint gather_plumber (text : string)
    (pages : list (outcome (option string))) : string :=
  match pages with
  | [] => text
  | Raise _ :: _ => text
  | Ok None :: pages' => gather_plumber text pages'
  | Ok (Some page_text) :: pages' =>
      gather_plumber
        (if is_empty page_text then text else text ++ page_text ++ nl)
        pages'
  end.

(** The loop over the pages of [fitz], inside its [try]. *)
Fixpoint gather_fitz (text : string) (pages : list (outcome string))
  : string :=
  match pages with
  | [] => text
  | Raise _ :: _ => text
  | Ok page_text :: pages' => gather_fitz (text ++ page_text ++ nl) pages'
  end.

(** The text that [_parse_pdf] hands to [_extract_structure]. *)
Definition pdf_text (d : Decoders) (file_path : string) : string :=
  let text :=
    match pdfplumber_pages d file_path with
    | Ok pages => gather_plumber "" pages
    | Raise _ => ""
    end in
  if is_empty (strip text) then
    match fitz_pages d file_path with
    | Ok pages => gather_fitz text pages
    | Raise _ => text
    end
  else text.

Definition _parse_pdf (d : Decoders) (file_path : string)
  : M ResumeParser Profile :=
  _extract_structure (pdf_text d file_path).

Fixpoint docx_text (text : string) (paragraphs : list string) : string :=
  match paragraphs with
  | [] => text
  | paragraph :: paragraphs' => docx_text (text ++ paragraph ++ nl) paragraphs'
  end.

Definition _parse_docx (d : Decoders) (file_path : string)
  : M ResumeParser Profile :=
  match docx_paragraphs d file_path with
  | Ok paragraphs => _extract_structure (docx_text "" paragraphs)
  | Raise _ => raise ValueError
  end.

Definition parse_resume (d : Decoders) (file_path : string)
  : M ResumeParser Profile :=
  let file_extension := lower (snd (splitext d file_path)) in
  if String.eqb file_extension ".pdf" then _parse_pdf d file_path
  else if String.eqb file_extension ".docx" then _parse_docx d file_path
  else raise ValueError.

End ResumeParser.


(** ** [backend/job_matcher.py] *)

Module JobMatcher.
Import Re.

Record JobPosting : Type :=
  { title : string;
    company : string;
    location : string;
    salary : string;
    experience : string;
    description : string;
    requirements : string;
    job_type : string;
    industry : string }.

(** A row of the frame of jobs: a posting, and the column
    [combined_text] once [_prepare_jobs_data] has added it.  The index of
    the frame is the default one: the label of a row is its position. *)
Record Row : Type := { posting : JobPosting; combined_text : option string }.

Definition DataFrame : Type := list Row.

(** [pd.DataFrame(jobs)] *)
Definition frame_of (jobs : list JobPosting) : DataFrame :=
  map (fun j => {| posting := j; combined_text := None |}) jobs.

(** [df.empty] *)
Definition empty (df : DataFrame) : bool :=
  match df with [] => true | _ => false end.

(** [df.iloc[i]]: a position counted from the end when negative, and
    [IndexError] outside the frame. *)
Definition iloc (df : DataFrame) (i : Z) : outcome Row :=
  let n := Z.of_nat (List.length df) in
  let j := if (i <? 0)%Z then (i + n)%Z else i in
  if (j <? 0)%Z then Raise IndexError
  else match nth_error df (Z.to_nat j) with
       | Some row => Ok row
       | None => Raise IndexError
       end.

(** The matcher object.  Its vectorizer and the TF-IDF vectors that
    [_prepare_jobs_data] computes are read by no method. *)
Record JobMatcher : Type := { jobs_data : option DataFrame }.

Definition job (title company location salary experience description
    requirements job_type industry : string) : JobPosting :=
  {| title := title; company := company; location := location;
     salary := salary; experience := experience;
     description := description; requirements := requirements;
     job_type := job_type; industry := industry |}.

Definition _load_default_jobs : DataFrame :=
  frame_of
  [ job "Senior Software Engineer" "TechCorp Dubai" "Dubai, UAE"
      "AED 25,000 - 35,000" "5-8 years"
      "We are looking for a Senior Software Engineer with expertise in Python, JavaScript, and cloud technologies. Experience with AWS, Docker, and microservices architecture is required."
      "Python, JavaScript, AWS, Docker, Microservices, React, Node.js, MongoDB, PostgreSQL"
      "Full-time" "Technology";
    job "Data Scientist" "DataFlow Analytics" "Dubai, UAE"
      "AED 20,000 - 30,000" "3-6 years"
      "Join our data science team to develop machine learning models and analytics solutions. Work with large datasets and implement predictive models."
      "Python, Machine Learning, Statistics, SQL, Pandas, Scikit-learn, TensorFlow, Data Analysis"
      "Full-time" "Technology";
    job "Marketing Manager" "Global Marketing Solutions" "Dubai, UAE"
      "AED 18,000 - 25,000" "4-7 years"
      "Lead marketing campaigns and strategies for our clients in the MENA region. Experience in digital marketing and brand management required."
      "Digital Marketing, Brand Management, Social Media, Google Ads, Analytics, Campaign Management"
      "Full-time" "Marketing";
    job "Financial Analyst" "Dubai Financial Services" "Dubai, UAE"
      "AED 15,000 - 22,000" "2-5 years"
      "Analyze financial data, prepare reports, and provide insights for investment decisions. CFA or similar certification preferred."
      "Financial Analysis, Excel, Financial Modeling, CFA, Investment Analysis, Risk Management"
      "Full-time" "Finance";
    job "UX/UI Designer" "Creative Design Studio" "Dubai, UAE"
      "AED 16,000 - 24,000" "3-6 years"
      "Create user-centered designs for web and mobile applications. Experience with design tools and user research methods required."
      "Figma, Adobe Creative Suite, User Research, Prototyping, Wireframing, Design Systems"
      "Full-time" "Design";
    job "Project Manager" "Construction Solutions Ltd" "Dubai, UAE"
      "AED 20,000 - 28,000" "5-8 years"
      "Manage construction projects from inception to completion. PMP certification and experience in the UAE market preferred."
      "Project Management, PMP, Construction, Budget Management, Team Leadership, Risk Management"
      "Full-time" "Construction";
    job "Sales Executive" "Dubai Trading Company" "Dubai, UAE"
      "AED 8,000 - 15,000" "1-3 years"
      "Generate new business opportunities and maintain relationships with existing clients. Strong communication skills required."
      "Sales, Customer Relationship Management, Communication, Negotiation, B2B Sales"
      "Full-time" "Sales";
    job "Human Resources Specialist" "HR Solutions UAE" "Dubai, UAE"
      "AED 12,000 - 18,000" "3-5 years"
      "Handle recruitment, employee relations, and HR operations. Knowledge of UAE labor law required."
      "HR Management, Recruitment, Employee Relations, UAE Labor Law, HRIS, Performance Management"
      "Full-time" "Human Resources";
    job "Business Development Manager" "Innovation Hub Dubai" "Dubai, UAE"
      "AED 22,000 - 32,000" "4-7 years"
      "Develop strategic partnerships and identify new business opportunities in the technology sector."
      "Business Development, Strategic Partnerships, Market Analysis, Negotiation, Technology Industry"
      "Full-time" "Business Development";
    job "Content Writer" "Digital Content Agency" "Dubai, UAE"
      "AED 8,000 - 12,000" "2-4 years"
      "Create engaging content for websites, blogs, and social media platforms. Experience in SEO and content marketing preferred."
      "Content Writing, SEO, Social Media, Copywriting, Content Marketing, WordPress"
      "Full-time" "Marketing" ].

(** [_prepare_jobs_data], on the frame held by the matcher: the column
    [combined_text] is added to a frame that is not empty.  The fit of the
    vectorizer that follows is inside a [try] that catches everything. *)
Definition _prepare_jobs_data (df : DataFrame) : DataFrame :=
  if empty df then df
  else
    map (fun row =>
           let j := posting row in
           {| posting := j;
              combined_text :=
                Some (title j ++ " " ++ description j ++ " "
                      ++ requirements j ++ " " ++ company j) |}) df.

(** What a caller can pass as [jobs_data]: nothing, a frame, or a plain
    sequence of postings. *)
Inductive jobs_arg : Type :=
| PyNone
| PyFrame (df : DataFrame)
| PyList (l : list JobPosting).

(** [bool(x)]: a frame has no truth value. *)
Definition truth (x : jobs_arg) : outcome bool :=
  match x with
  | PyNone => Ok false
  | PyFrame _ => Raise ValueError
  | PyList l => Ok (negb (match l with [] => true | _ => false end))
  end.

(** [__init__]: [self.jobs_data = jobs_data or self._load_default_jobs()],
    then [self._prepare_jobs_data()], which reads [self.jobs_data.empty]. *)
Definition __init__ (jobs_data : jobs_arg) : outcome JobMatcher :=
  match truth jobs_data with
  | Raise e => Raise e
  | Ok b =>
      let chosen := if b then jobs_data else PyFrame _load_default_jobs in
      match chosen with
      | PyNone => Ok {| jobs_data := None |}
      | PyFrame df => Ok {| jobs_data := Some (_prepare_jobs_data df) |}
      | PyList _ => Raise AttributeError
      end
  end.

(** *** [_prepare_resume_text] *)

Definition opt_text (o : option string) : string :=
  match o with Some s => s | None => "" end.

Definition if_text (s : string) : list string :=
  if is_empty s then [] else [s].

Definition _prepare_resume_text (resume_data : ResumeParser.Profile)
  : string :=
  let text_parts :=
    (if_text (ResumeParser.name resume_data)
    ++ if_text (ResumeParser.summary resume_data)
    ++ ResumeParser.skills resume_data
    ++ flat_map (fun exp =>
                   [ResumeParser.title exp;
                    opt_text (ResumeParser.description exp)])
                (ResumeParser.experience resume_data)
    ++ flat_map (fun edu =>
                   [ResumeParser.degree edu;
                    opt_text (ResumeParser.institution edu)])
                (ResumeParser.education resume_data)
    ++ flat_map (fun proj =>
                   [ResumeParser.title proj;
                    opt_text (ResumeParser.description proj)])
                (ResumeParser.projects resume_data)
    ++ if_text (ResumeParser.raw_text resume_data))%list in
  join " " text_parts.

(** *** The four factors *)

(** [\b\w+\b] *)
Definition word_pattern : regex := Seq WordB (Seq (plus word) WordB).

(** [sum(1 for x in xs if x in text)] *)
Definition count_in (xs : list string) (text : string) : nat :=
  fold_left (fun n x => if contains x text then S n else n) xs O.

Definition _calculate_keyword_score (resume_text : string)
    (job : JobPosting) : Q :=
  let requirements := lower (requirements job) in
  let keywords := Re.findall word_pattern requirements in
  match keywords with
  | [] => 0
  | _ =>
      let resume_lower := lower resume_text in
      let matches := count_in keywords resume_lower in
      truediv matches (List.length keywords)
  end.

Definition _calculate_title_match (resume_text job_title : string) : Q :=
  let title_keywords := Re.findall word_pattern (lower job_title) in
  match title_keywords with
  | [] => 0
  | _ =>
      let resume_lower := lower resume_text in
      let matches := count_in title_keywords resume_lower in
      truediv matches (List.length title_keywords)
  end.

Definition technical_skills : list string :=
  ["python"; "javascript"; "java"; "c++"; "c#"; "php"; "ruby"; "go"; "rust";
   "html"; "css"; "react"; "angular"; "vue"; "node.js"; "express"; "django";
   "flask"; "spring"; "laravel"; "sql"; "mongodb"; "postgresql"; "mysql";
   "aws"; "azure"; "gcp"; "docker"; "kubernetes"; "git"; "jenkins";
   "machine learning"; "ai"; "data science"; "analytics"; "tableau";
   "excel"; "power bi"; "spark"; "hadoop"; "tensorflow"; "pytorch"].

Definition _calculate_skills_match (resume_text job_requirements : string)
  : Q :=
  let req_lower := lower job_requirements in
  let job_skills :=
    filter (fun skill => contains skill req_lower) technical_skills in
  match job_skills with
  | [] => 0
  | _ =>
      let resume_lower := lower resume_text in
      let matches := count_in job_skills resume_lower in
      truediv matches (List.length job_skills)
  end.

(** [(\d+)[\-\s]*(\d+)?\s*years?] *)
Definition experience_pattern : regex :=
  Seq (Group 1 (plus digit))
   (Seq (Star (Cls (fun c => Ascii.eqb c "-" || is_space c)))
    (Seq (Opt (Group 2 (plus digit)))
     (Seq (Star ws) (Seq (lit "year") (Opt (chr "s")))))).

Definition experience_indicators : list string :=
  ["years of experience"; "years experience"; "worked for"; "employed for";
   "experience in"; "professional experience"; "work history"].

Definition _calculate_experience_match (resume_text job_experience : string)
  : Q :=
  match Re.search experience_pattern (lower job_experience) with
  | None => 1 # 2
  | Some exp_match =>
      let min_years := int (opt_text (group 1 exp_match)) in
      let max_years :=
        match group 2 exp_match with
        | Some g => int g
        | None => (min_years + 2)%Z
        end in
      let resume_lower := lower resume_text in
      let has_experience :=
        existsb (fun indicator => contains indicator resume_lower)
                experience_indicators in
      if negb has_experience then 0 else 4 # 5
  end.

Definition _calculate_job_match_score (resume_text : string)
    (job : JobPosting) : Q :=
  let score := 0 in
  let keyword_score := _calculate_keyword_score resume_text job in
  let score := score + keyword_score * (2 # 5) in
  let title_score := _calculate_title_match resume_text (title job) in
  let score := score + title_score * (1 # 5) in
  let skills_score :=
    _calculate_skills_match resume_text (requirements job) in
  let score := score + skills_score * (1 # 4) in
  let experience_score :=
    _calculate_experience_match resume_text (experience job) in
  let score := score + experience_score * (3 # 20) in
  Qmin 1 (Qmax 0 score).

(** *** Ranking *)

(** A dict [match_info]. *)
Record MatchResult : Type :=
  { job_id : nat;
    matched : JobPosting;
    match_score : Q;
    match_percentage : Q }.

(** [df.iterrows()] *)
Definition iterrows (df : DataFrame) : list (nat * Row) :=
  combine (seq 0 (List.length df)) df.

Definition match_info (resume_text : string) (r : nat * Row) : MatchResult :=
  let score := _calculate_job_match_score resume_text (posting (snd r)) in
  {| job_id := fst r;
     matched := posting (snd r);
     match_score := score;
     match_percentage := round1 (score * 100) |}.

(** [l.sort(key=key, reverse=True)]: a stable sort by decreasing key. *)
Fixpoint insert_reverse (A : Type) (key : A -> Q) (x : A) (l : list A)
  : list A :=
  match l with
  | [] => [x]
  | y :: l' =>
      if Qle_bool (key y) (key x) then x :: l
      else y :: insert_reverse key x l'
  end.

Definition sort_reverse (A : Type) (key : A -> Q) (l : list A) : list A :=
  fold_right (insert_reverse key) [] l.

(** The value of an argument that has a default. *)
Definition or_default (A : Type) (d : A) (o : option A) : A :=
  match o with Some a => a | None => d end.

Definition all_matches (resume_data : ResumeParser.Profile)
    (df : DataFrame) : list MatchResult :=
  map (match_info (_prepare_resume_text resume_data)) (iterrows df).

Definition match_resume_to_jobs (resume_data : ResumeParser.Profile)
    (top_n : option Z) : M JobMatcher (list MatchResult) :=
  let top_n := or_default 5%Z top_n in
  self <- get ;;
  match jobs_data self with
  | None => ret []
  | Some df =>
      if empty df then ret []
      else
        let matches := all_matches resume_data df in
        let matches := sort_reverse match_score matches in
        ret (slice_to top_n matches)
  end.

(** *** Catalog operations *)

Definition details (j : JobPosting) : list (string * string) :=
  [("title", title j); ("company", company j); ("location", location j);
   ("salary", salary j); ("experience", experience j);
   ("description", description j); ("requirements", requirements j);
   ("job_type", job_type j); ("industry", industry j)].

(** The dict returned is a list of keys and values, [[]] for [{}]. *)
Definition get_job_details (job_id : Z)
  : M JobMatcher (list (string * string)) :=
  self <- get ;;
  match jobs_data self with
  | None => ret []
  | Some df =>
      if (Z.of_nat (List.length df) <=? job_id)%Z then ret []
      else
        match iloc df job_id with
        | Raise e => raise e
        | Ok row => ret (details (posting row))
        end
  end.

Definition query_matches (query_lower : string) (j : JobPosting) : bool :=
  let title_match := contains query_lower (lower (title j)) in
  let company_match := contains query_lower (lower (company j)) in
  let desc_match := contains query_lower (lower (description j)) in
  let req_match := contains query_lower (lower (requirements j)) in
  title_match || company_match || desc_match || req_match.

Definition search_jobs (query : string) (top_n : option Z)
  : M JobMatcher (list (nat * JobPosting)) :=
  let top_n := or_default 5%Z top_n in
  self <- get ;;
  match jobs_data self with
  | None => ret []
  | Some df =>
      if empty df then ret []
      else
        let query_lower := lower query in
        let matches :=
          map (fun r => (fst r, posting (snd r)))
              (filter (fun r => query_matches query_lower (posting (snd r)))
                      (iterrows df)) in
        ret (slice_to top_n matches)
  end.

(** The records returned are the rows of the frame, with all their
    columns. *)
Definition get_jobs_by_industry (industry_name : string)
  : M JobMatcher (list Row) :=
  self <- get ;;
  match jobs_data self with
  | None => ret []
  | Some df =>
      if empty df then ret []
      else
        ret (filter (fun row =>
                       String.eqb (lower (industry (posting row)))
                                  (lower industry_name)) df)
  end.

(** [series.unique()]: the values in the order of their first occurrence. *)
Fixpoint unique (l : list string) : list string :=
  match l with
  | [] => []
  | x :: l' => x :: filter (fun y => negb (String.eqb x y)) (unique l')
  end.

Definition get_available_industries : M JobMatcher (list string) :=
  self <- get ;;
  match jobs_data self with
  | None => ret []
  | Some df =>
      if empty df then ret []
      else ret (unique (map (fun row => industry (posting row)) df))
  end.

End JobMatcher.


(** ** [backend/language_utils.py] *)

Module LanguageProcessor.

(** What the libraries outside the processor give: [langdetect.detect] on a
    text, and the translation of a text from a source to a target language
    by [GoogleTranslator]; a call that raises is a [Raise]. *)
Record Services : Type :=
  { langdetect_detect : string -> outcome string;
    google_translate : string -> string -> string -> outcome string }.

Definition supported_languages : list string := ["en"; "ar"].

(** [x in l] *)
Definition in_list (x : string) (l : list string) : bool :=
  existsb (String.eqb x) l.

Definition detect_language (sv : Services) (text : string) : string :=
  match langdetect_detect sv text with
  | Ok lang =>
      if in_list lang ["en"; "en-US"; "en-GB"] then "en"
      else if in_list lang ["ar"; "ar-SA"; "ar-AE"] then "ar"
      else "en"
  | Raise _ => "en"
  end.

Definition translate_text (sv : Services) (text target_lang : string)
  : string :=
  if is_empty text || negb (in_list target_lang supported_languages)
  then text
  else
    let source_lang := detect_language sv text in
    if String.eqb source_lang target_lang then text
    else
      match google_translate sv source_lang target_lang text with
      | Ok translated => translated
      | Raise _ => text
      end.

(** A dict of strings is a list of keys and values. *)
Fixpoint lookup (key : string) (d : list (string * string))
  : option string :=
  match d with
  | [] => None
  | (k, v) :: d' => if String.eqb k key then Some v else lookup key d'
  end.

Definition texts_en : list (string * string) :=
  [ ("title", "Resume Analyzer & Job Matcher");
    ("subtitle", "Get Your Resume Analyzed & Matched to Top Dubai Jobs");
    ("upload_label", "Upload your resume (PDF or DOCX)");
    ("analyze_button", "Analyze Resume");
    ("overall_score", "Overall Score");
    ("resume_analysis", "Resume Analysis");
    ("suggestions", "Improvement Suggestions");
    ("job_matches", "Job Matches");
    ("download_report", "Download Report");
    ("language_toggle", "Language");
    ("loading", "Analyzing your resume...");
    ("error_message", "An error occurred. Please try again.");
    ("no_file", "Please upload a resume file.");
    ("invalid_format", "Please upload a PDF or DOCX file.");
    ("score_excellent", "Excellent");
    ("score_good", "Good");
    ("score_fair", "Fair");
    ("score_poor", "Needs Improvement");
    ("match_percentage", "Match");
    ("company", "Company");
    ("location", "Location");
    ("salary", "Salary");
    ("experience", "Experience");
    ("skills", "Skills");
    ("education", "Education");
    ("contact", "Contact Information");
    ("summary", "Professional Summary");
    ("strengths", "Strengths");
    ("weaknesses", "Areas for Improvement");
    ("recommendations", "Recommendations") ].

Definition texts_ar : list (string * string) :=
  [ ("title", "محلل السيرة الذاتية ومطابق الوظائف");
    ("subtitle", "احصل على تحليل سيرتك الذاتية ومطابقتها مع أفضل وظائف دبي");
    ("upload_label", "قم برفع سيرتك الذاتية (PDF أو DOCX)");
    ("analyze_button", "تحليل السيرة الذاتية");
    ("overall_score", "الدرجة الإجمالية");
    ("resume_analysis", "تحليل السيرة الذاتية");
    ("suggestions", "اقتراحات التحسين");
    ("job_matches", "الوظائف المطابقة");
    ("download_report", "تحميل التقرير");
    ("language_toggle", "اللغة");
    ("loading", "جاري تحليل سيرتك الذاتية...");
    ("error_message", "حدث خطأ. يرجى المحاولة مرة أخرى.");
    ("no_file", "يرجى رفع ملف السيرة الذاتية.");
    ("invalid_format", "يرجى رفع ملف PDF أو DOCX.");
    ("score_excellent", "ممتاز");
    ("score_good", "جيد");
    ("score_fair", "مقبول");
    ("score_poor", "يحتاج تحسين");
    ("match_percentage", "مطابقة");
    ("company", "الشركة");
    ("location", "الموقع");
    ("salary", "الراتب");
    ("experience", "الخبرة");
    ("skills", "المهارات");
    ("education", "التعليم");
    ("contact", "معلومات الاتصال");
    ("summary", "الملخص المهني");
    ("strengths", "نقاط القوة");
    ("weaknesses", "مجالات التحسين");
    ("recommendations", "التوصيات") ].

(** [texts.get(language, texts['en'])] *)
Definition get_ui_texts (language : string) : list (string * string) :=
  if String.eqb language "en" then texts_en
  else if String.eqb language "ar" then texts_ar
  else texts_en.

(** The description of a score, [None] for the [KeyError] of a missing
    key. *)
Definition format_score_description (score : Z) (language : string)
  : option string :=
  let texts := get_ui_texts language in
  if (85 <=? score)%Z then lookup "score_excellent" texts
  else if (70 <=? score)%Z then lookup "score_good" texts
  else if (50 <=? score)%Z then lookup "score_fair" texts
  else lookup "score_poor" texts.

End LanguageProcessor.


(** ** [backend/ai_analyzer.py] *)

Module AIAnalyzer.
Import Re.

(** The dict of an analysis. *)
Record Analysis : Type :=
  { score : Z;
    strengths : list string;
    weaknesses : list string;
    suggestions : list string;
    improved_summary : string;
    ai_response : string }.

(** The truth value of [d.get(key)] for a key that holds a string. *)
Definition filled (o : option string) : bool :=
  match o with
  | Some s => negb (is_empty s)
  | None => false
  end.

Definition nonempty (A : Type) (l : list A) : bool :=
  match l with [] => false | _ => true end.

(** The score of [_fallback_analysis], before the texts around it. *)
Definition fallback_score (resume_data : ResumeParser.Profile) : Z :=
  let score := 50%Z in
  let score :=
    if negb (is_empty (ResumeParser.name resume_data))
    then (score + 5)%Z else score in
  let score :=
    if negb (is_empty (ResumeParser.summary resume_data))
    then (score + 10)%Z else score in
  let score :=
    if nonempty (ResumeParser.experience resume_data)
    then (score + 15)%Z else score in
  let score :=
    if nonempty (ResumeParser.education resume_data)
    then (score + 10)%Z else score in
  let score :=
    if nonempty (ResumeParser.skills resume_data)
    then (score + 10)%Z else score in
  let contact_info := ResumeParser.contact_info resume_data in
  let score :=
    if filled (ResumeParser.email contact_info)
    then (score + 5)%Z else score in
  let score :=
    if filled (ResumeParser.phone contact_info)
    then (score + 5)%Z else score in
  Z.min 100 score.

Definition _fallback_analysis (resume_data : ResumeParser.Profile)
    (language : string) : Analysis :=
  let score := fallback_score resume_data in
  if String.eqb language "ar" then
    {| score := score;
       strengths :=
         if (60 <? score)%Z
         then ["السيرة الذاتية تحتوي على معلومات أساسية"; "التنسيق مقبول"]
         else ["تم رفع الملف بنجاح"];
       weaknesses :=
         if (score <? 80)%Z
         then ["يمكن تحسين المحتوى"; "يحتاج إلى مزيد من التفاصيل"]
         else ["تحسينات طفيفة مطلوبة"];
       suggestions :=
         ["أضف ملخص مهني واضح"; "حسن وصف الخبرات العملية";
          "أضف المزيد من المهارات التقنية"];
       improved_summary := "ملخص مهني محسن بناءً على تحليل السيرة الذاتية";
       ai_response := "تحليل أساسي تم إجراؤه بدون AI" |}
  else
    {| score := score;
       strengths :=
         if (60 <? score)%Z
         then ["Resume contains basic information"; "Format is acceptable"]
         else ["File uploaded successfully"];
       weaknesses :=
         if (score <? 80)%Z
         then ["Content can be improved"; "Needs more details"]
         else ["Minor improvements needed"];
       suggestions :=
         ["Add a clear professional summary";
          "Improve work experience descriptions";
          "Add more technical skills"];
       improved_summary :=
         "Enhanced professional summary based on resume analysis";
       ai_response := "Basic analysis performed without AI" |}.

(** The loop of [calculate_keyword_score]. *)
Definition matched_keywords (resume_lower : string)
    (job_keywords : list string) : nat :=
  fold_left
    (fun matched keyword =>
       if contains (lower keyword) resume_lower then S matched else matched)
    job_keywords O.

Definition calculate_keyword_score (resume_text : string)
    (job_keywords : list string) : Q :=
  match job_keywords with
  | [] => 0
  | _ =>
      let resume_lower := lower resume_text in
      truediv (matched_keywords resume_lower job_keywords)
              (List.length job_keywords)
  end.

(** [(\d+)/100|score[:\s]*(\d+)], with [re.IGNORECASE] *)
Definition score_pattern : regex :=
  Alt (Seq (Group 1 (plus digit)) (lit "/100"))
      (Seq (liti "score")
           (Seq ResumeParser.colons (Group 2 (plus digit)))).

(** [[A-Z]] without [re.IGNORECASE] *)
Definition capital : regex := Cls is_upper.

(** [<header>[:\s]*(.*?)(?=\n\s*\n|\n\s*[A-Z]|$)], with [re.DOTALL]
    alone *)
Definition arabic_section (header : string) : regex :=
  Seq (lit header)
   (Seq ResumeParser.colons
    (Seq (Group 1 (Lazy dot_all))
         (Ahead (Alt (Seq ResumeParser.nlc (Seq (Star ws) ResumeParser.nlc))
                (Alt (Seq ResumeParser.nlc (Seq (Star ws) capital))
                     Eos))))).

(** The lines of the body found by a pattern, stripped, the blank ones
    dropped; [previous] when the pattern is not found. *)
Definition section_lines (pattern : regex) (text : string)
    (previous : list string) : list string :=
  match Re.search pattern text with
  | Some m =>
      ResumeParser.stripped (split_on NL (ResumeParser.group1 m))
  | None => previous
  end.

Definition extracted_score (text : string) : Z :=
  match Re.search score_pattern text with
  | Some score_match =>
      let score :=
        match group 1 score_match with
        | Some g => g
        | None => JobMatcher.opt_text (group 2 score_match)
        end in
      Z.min 100 (Z.max 0 (int score))
  | None => 50%Z
  end.

Definition _extract_from_text (text language : string) : Analysis :=
  if String.eqb language "ar" then
    {| score := extracted_score text;
       strengths := section_lines (arabic_section "نقاط القوة") text [];
       weaknesses := section_lines (arabic_section "مجالات التحسين") text [];
       suggestions := section_lines (arabic_section "اقتراحات") text [];
       improved_summary := "";
       ai_response := text |}
  else
    {| score := extracted_score text;
       strengths :=
         section_lines (ResumeParser.summary_pattern "strengths") text [];
       weaknesses :=
         section_lines (ResumeParser.summary_pattern "weaknesses") text [];
       suggestions :=
         section_lines (ResumeParser.summary_pattern "suggestions") text [];
       improved_summary := "";
       ai_response := text |}.

End AIAnalyzer.


(** * Properties *)

Import Re ResumeParser JobMatcher.

(** ** Instances and reference definitions *)

(** The matcher built without a catalog, and the profile of a short
    resume, used where a property is checked on an instance. *)
Definition default_matcher : JobMatcher :=
  {| jobs_data := Some (_prepare_jobs_data _load_default_jobs) |}.

Definition sample_resume : string :=
  "Jane Roe" ++ nl ++ "Professional experience in sales" ++ nl
  ++ "Skills: Python, AWS; Docker".

Definition sample_profile : Profile := extract_structure sample_resume.

Definition sales_profile : Profile := extract_structure "Sales".

(** The seventh default posting, Sales Executive. *)
Definition sales_job : JobPosting :=
  job "Sales Executive" "Dubai Trading Company" "Dubai, UAE"
    "AED 8,000 - 15,000" "1-3 years"
    "Generate new business opportunities and maintain relationships with existing clients. Strong communication skills required."
    "Sales, Customer Relationship Management, Communication, Negotiation, B2B Sales"
    "Full-time" "Sales".

(** A resume with twenty-one languages. *)
Definition many_languages : string :=
  "Languages: L01, L02, L03, L04, L05, L06, L07, L08, L09, L10, L11, L12, L13, L14, L15, L16, L17, L18, L19, L20, L21".

Definition twenty_one : list string :=
  ["L01"; "L02"; "L03"; "L04"; "L05"; "L06"; "L07"; "L08"; "L09"; "L10";
   "L11"; "L12"; "L13"; "L14"; "L15"; "L16"; "L17"; "L18"; "L19"; "L20";
   "L21"].

(** The test that [_extract_name] makes on a stripped line. *)
Definition qualifies (line : string) : bool :=
  negb (is_empty line)
  && (List.length (split_ws line) <=? 4)%nat
  && negb (has_keyword line).

(** The test in the words of the specification: at most four words and no
    metadata word. *)
Definition qualifies_spec (line : string) : bool :=
  (List.length (split_ws line) <=? 4)%nat && negb (has_keyword line).

(** The first of the first five lines, stripped, that passes [test]; the
    empty name when none does. *)
Definition first_line (test : string -> bool) (text : string) : string :=
  match find test (map strip (firstn 5 (split_on NL text))) with
  | Some line => line
  | None => ""
  end.

(** The character [c] occurs in [s]. *)
Fixpoint mem (c : ascii) (s : string) : bool :=
  match s with
  | "" => false
  | String d s' => Ascii.eqb d c || mem c s'
  end.

(** No character of [s] is a space. *)
Fixpoint spaceless (s : string) : bool :=
  match s with
  | "" => true
  | String c s' => negb (is_space c) && spaceless s'
  end.

(** The longest prefix of word characters, and what follows it. *)
Fixpoint word_run (s : string) : string :=
  match s with
  | "" => ""
  | String c s' => if is_word c then String c (word_run s') else ""
  end.

Fixpoint after_run (s : string) : string :=
  match s with
  | "" => ""
  | String c s' => if is_word c then after_run s' else s
  end.

(** The maximal runs of word characters of a text. *)
Fixpoint word_tokens (s : string) : list string :=
  match s with
  | "" => []
  | String c s' =>
      if is_word c then
        match s' with
        | "" => [String c ""]
        | String c' _ =>
            if is_word c' then push c (word_tokens s')
            else String c "" :: word_tokens s'
        end
      else word_tokens s'
  end.

(** The position after the longest run of characters of a class. *)
Fixpoint run_to (p : ascii -> bool) (pv : option ascii) (s : string)
    (cs : list (nat * string)) : mstate :=
  match s with
  | "" => {| prev := pv; rest := ""; caps := cs |}
  | String c s' =>
      if p c then run_to p (Some c) s' cs
      else {| prev := pv; rest := s; caps := cs |}
  end.

(** The keyword factor in the words of the specification: the distinct
    tokens of the requirements found in the resume, over all the tokens. *)
Definition keyword_score_distinct (resume_text : string) (j : JobPosting)
  : Q :=
  let tokens := word_tokens (lower (requirements j)) in
  match tokens with
  | [] => 0
  | _ =>
      truediv
        (List.length
           (nodup string_dec
              (filter (fun t => contains t (lower resume_text)) tokens)))
        (List.length tokens)
  end.

(** [a] may stand before [b] in a list sorted by decreasing key. *)
Definition before (A : Type) (key : A -> Q) (a b : A) : Prop :=
  key b <= key a.

(** What a call returned, when it did not raise. *)
Definition returned (S A : Type) (r : outcome A * S) : option A :=
  match fst r with
  | Ok a => Some a
  | Raise _ => None
  end.

(** The hits of a search, before they are cut to [top_n]. *)
Definition hits (query : string) (df : DataFrame)
  : list (nat * JobPosting) :=
  map (fun r => (fst r, posting (snd r)))
      (filter (fun r => query_matches (lower query) (posting (snd r)))
              (iterrows df)).

(** The profile of a text without any section. *)
Definition empty_profile : Profile :=
  {| raw_text := "";
     contact_info := {| email := None; phone := None; linkedin := None |};
     name := "";
     summary := "";
     ResumeParser.experience := [];
     education := [];
     skills := [];
     languages := [];
     certifications := [];
     projects := [] |}.

(** Every character of [s] is whitespace. *)
Definition blank (s : string) : bool :=
  forallb is_space (list_ascii_of_string s).

(** Every character of [s] is an ASCII one. *)
Definition ascii_text (s : string) : bool :=
  forallb (fun c => (nat_of_ascii c <? 128)%nat) (list_ascii_of_string s).

(** No character of [s] is a digit. *)
Fixpoint digitless (s : string) : bool :=
  match s with
  | "" => true
  | String c s' => negb (is_digit c) && digitless s'
  end.

(** A line that opens a record of a section: it is not blank and has a
    trigger word. *)
Definition opens (trigger : regex) (line : string) : bool :=
  negb (is_empty line) && Re.matches trigger line.

(** The title of the record that is open, if one is. *)
Definition open_title (current : option (string * option string))
  : list string :=
  match current with
  | Some e => [fst e]
  | None => []
  end.

(** The extension that [parse_resume] looks at. *)
Definition extension (d : Decoders) (file_path : string) : string :=
  lower (snd (splitext d file_path)).

(** Decoders for a file with the extension [ext]: no page and no
    paragraph. *)
Definition no_pages (ext : string) : Decoders :=
  {| splitext := fun path => (path, ext);
     pdfplumber_pages := fun _ => Ok [];
     fitz_pages := fun _ => Raise ValueError;
     docx_paragraphs := fun _ => Ok [] |}.

(** A detector that always answers English and a translator that marks
    the text with the target language. *)
Definition marking_services : LanguageProcessor.Services :=
  {| LanguageProcessor.langdetect_detect := fun _ => Ok "en";
     LanguageProcessor.google_translate :=
       fun _ target text => Ok (target ++ ":" ++ text) |}.

(** A profile with every part that the fallback score counts. *)
Definition full_profile : Profile :=
  {| raw_text := "";
     contact_info :=
       {| email := Some "jane@roe.org"; phone := Some "+971 50 123 4567";
          linkedin := None |};
     name := "Jane Roe";
     summary := "Engineer";
     ResumeParser.experience :=
       [{| ResumeParser.title := "Engineer";
           ResumeParser.description := None |}];
     education := [{| degree := "Bachelor"; institution := None |}];
     skills := ["Python"];
     languages := [];
     certifications := [];
     projects := [] |}.

(** The parts of a profile that the fallback score counts are all
    missing. *)
Definition bare (p : Profile) : bool :=
  is_empty (name p) && is_empty (summary p)
  && negb (AIAnalyzer.nonempty (ResumeParser.experience p))
  && negb (AIAnalyzer.nonempty (education p))
  && negb (AIAnalyzer.nonempty (skills p))
  && negb (AIAnalyzer.filled (email (contact_info p)))
  && negb (AIAnalyzer.filled (phone (contact_info p))).

(** Every part is there. *)
Definition complete (p : Profile) : bool :=
  negb (is_empty (name p)) && negb (is_empty (summary p))
  && AIAnalyzer.nonempty (ResumeParser.experience p)
  && AIAnalyzer.nonempty (education p)
  && AIAnalyzer.nonempty (skills p)
  && AIAnalyzer.filled (email (contact_info p))
  && AIAnalyzer.filled (phone (contact_info p)).

(** The longest decimal text that [int] takes. *)
Definition max_str_digits : nat := 4300.

(** A continuation of the matcher that rejects every position where the
    text left satisfies [I]. *)
Definition fails (I : string -> Prop) (A : Type) (k : mstate -> option A)
  : Prop :=
  forall st, I (rest st) -> k st = None.

(** Every character of [s] is one of [text]. *)
Definition within (text s : string) : Prop :=
  forall c, mem c s = true -> mem c text = true.

(** The text left and the groups captured at a position are made of
    characters of [text]. *)
Definition drawn_from (text : string) (st : mstate) : Prop :=
  within text (rest st) /\ Forall (fun p => within text (snd p)) (caps st).

(** The continuation [k] gives [x] at a position drawn from [text]. *)
Definition reaches (text : string) (A : Type) (k : mstate -> option A)
    (x : A) : Prop :=
  exists st', drawn_from text st' /\ k st' = Some x.

(** ** Strings *)

Lemma mem_append (c : ascii) (s t : string) :
  mem c (s ++ t) = mem c s || mem c t.
Proof.
  induction s as [| d s IH]; simpl; [reflexivity |].
  now rewrite IH, orb_assoc.
Qed.

Lemma lstrip_mem (c : ascii) (s : string) :
  mem c (lstrip s) = true -> mem c s = true.
Proof.
  induction s as [| d s IH]; simpl; [trivial |].
  destruct (is_space d); simpl; [| trivial].
  intros H. rewrite (IH H). apply orb_true_r.
Qed.

Lemma rstrip_mem (c : ascii) (s : string) :
  mem c (rstrip s) = true -> mem c s = true.
Proof.
  induction s as [| d s IH]; simpl; [trivial |].
  destruct (is_empty (rstrip s) && is_space d); simpl; [discriminate |].
  intros H. apply orb_true_iff in H. apply orb_true_iff.
  destruct H as [H | H]; [now left | right; now apply IH].
Qed.

Lemma strip_mem (c : ascii) (s : string) :
  mem c (strip s) = true -> mem c s = true.
Proof. intros H. apply lstrip_mem. now apply rstrip_mem. Qed.

Lemma rstrip_idem (s : string) : rstrip (rstrip s) = rstrip s.
Proof.
  induction s as [| d s IH]; simpl; [reflexivity |].
  destruct (is_empty (rstrip s) && is_space d) eqn:E; [reflexivity |].
  simpl. now rewrite IH, E.
Qed.

Lemma lstrip_head (s : string) :
  match lstrip s with
  | "" => True
  | String c _ => is_space c = false
  end.
Proof.
  induction s as [| d s IH]; simpl; [trivial |].
  destruct (is_space d) eqn:E; [exact IH | exact E].
Qed.

Lemma strip_idem (s : string) : strip (strip s) = strip s.
Proof.
  unfold strip. pose proof (lstrip_head s) as H.
  destruct (lstrip s) as [| c t]; [reflexivity |].
  assert (E : lstrip (rstrip (String c t)) = rstrip (String c t)).
  { simpl. rewrite H, andb_false_r. simpl. now rewrite H. }
  rewrite E. apply rstrip_idem.
Qed.

Lemma split_on_absent (sep : ascii) (s : string) :
  mem sep s = false -> split_on sep s = [s].
Proof.
  induction s as [| d s IH]; simpl; [reflexivity |].
  intros H. apply orb_false_iff in H. destruct H as [Hd Hs].
  rewrite Hd, (IH Hs). reflexivity.
Qed.

Lemma rstrip_spaceless (s : string) : spaceless s = true -> rstrip s = s.
Proof.
  induction s as [| c s IH]; simpl; [reflexivity |].
  intros H. apply andb_true_iff in H. destruct H as [Hc Hs].
  apply negb_true_iff in Hc. rewrite Hc, andb_false_r. now rewrite IH.
Qed.

Lemma strip_spaceless (s : string) : spaceless s = true -> strip s = s.
Proof.
  intros H. unfold strip.
  replace (lstrip s) with s; [now apply rstrip_spaceless |].
  destruct s as [| c s]; [reflexivity |].
  simpl in *. apply andb_true_iff in H. destruct H as [Hc _].
  apply negb_true_iff in Hc. now rewrite Hc.
Qed.

Lemma split_ws_spaceless (s : string) :
  Forall (fun w => spaceless w = true) (split_ws s).
Proof.
  induction s as [| c s IH]; [constructor |].
  cbn [split_ws]. destruct (is_space c) eqn:Ec; [exact IH |].
  destruct s as [| c' s'].
  - constructor; [simpl; now rewrite Ec | constructor].
  - destruct (is_space c') eqn:Ec'.
    + constructor; [simpl; now rewrite Ec | exact IH].
    + destruct (split_ws (String c' s')) as [| w ws'].
      * constructor; [simpl; now rewrite Ec | constructor].
      * inversion IH as [| ? ? Hw Hws]; subst.
        constructor; [simpl; now rewrite Ec, Hw | exact Hws].
Qed.

Lemma substring_length (n : nat) (s : string) :
  String.length (substring 0 n s) = Nat.min n (String.length s).
Proof.
  revert n. induction s as [| c s IH]; intros [| n]; simpl; try reflexivity.
  now rewrite IH.
Qed.

(** ** The matcher on the patterns of the program *)

Section Star.

Variable p : ascii -> bool.
Variable A : Type.
Variable k : mstate -> option A.
Hypothesis k_total : forall st, k st <> None.

Lemma star_class_reaches (n : nat) (st : mstate) :
  exists st',
    star_loop (rmatch (Cls p)) k n st = k st'
    /\ (String.length (rest st') <= String.length (rest st))%nat.
Proof.
  set (step := @rmatch A (Cls p)).
  assert (Hstep : forall st K,
             step st K
             = match rest st with
               | String c s' =>
                   if p c
                   then K {| prev := Some c; rest := s'; caps := caps st |}
                   else None
               | EmptyString => None
               end) by reflexivity.
  clearbody step.
  revert st. induction n as [| n IH]; intros st; simpl.
  - exists st. split; [reflexivity | lia].
  - rewrite Hstep. destruct (rest st) as [| c s'] eqn:E.
    + exists st. split; [reflexivity | rewrite E; apply Nat.le_refl].
    + destruct (p c).
      * unfold progress at 1. simpl. rewrite E. simpl.
        rewrite (proj2 (Nat.ltb_lt _ _) (Nat.lt_succ_diag_r _)).
        destruct (IH {| prev := Some c; rest := s'; caps := caps st |})
          as [st' [Hk Hlen]].
        rewrite Hk. exists st'. simpl in Hlen.
        destruct (k st') eqn:Ek; [| now apply k_total in Ek].
        split; [reflexivity | rewrite ?E; simpl; lia].
      * exists st. split; [reflexivity | rewrite E; apply Nat.le_refl].
Qed.

End Star.

(** [\s+] matches at a space, and takes at least that space. *)
Lemma spaces_match (pv : option ascii) (c : ascii) (s : string) :
  is_space c = true ->
  exists m n,
    match_at (plus ws) pv (String c s) = Some m
    /\ String.length (m_text m) = S n.
Proof.
  intros Hc.
  set (st0 := {| prev := pv; rest := String c s; caps := [] |}).
  set (k := fun st' : mstate =>
              Some {| m_text := consumed st0 st'; m_caps := caps st';
                      m_rest := rest st' |}).
  assert (Hk : forall st, k st <> None) by (intros st; discriminate).
  assert (E : match_at (plus ws) pv (String c s)
              = star_loop (rmatch (Cls is_space)) k (String.length s)
                  {| prev := Some c; rest := s; caps := [] |}).
  { unfold match_at, plus, ws. simpl. now rewrite Hc. }
  destruct (@star_class_reaches is_space found k Hk (String.length s)
              {| prev := Some c; rest := s; caps := [] |})
    as [st' [Hr Hlen]].
  rewrite E, Hr. unfold k. eexists.
  exists (String.length s - String.length (rest st'))%nat.
  split; [reflexivity |].
  cbn [m_text]. unfold consumed. cbn [rest st0]. cbn [rest] in Hlen.
  rewrite substring_length. simpl String.length. lia.
Qed.

Lemma sub_delete_mem (r : regex) (c : ascii) (s : string) (skip : nat)
    (pv : option ascii) :
  mem c (sub_from r "" skip pv s) = true -> mem c s = true.
Proof.
  revert skip pv. induction s as [| d s IH]; intros skip pv; simpl.
  - now destruct (match_at r pv "").
  - destruct skip as [| skip].
    + destruct (match_at r pv (String d s)) as [m |].
      * destruct (String.length (m_text m)); simpl; intros H.
        -- apply orb_true_iff in H. apply orb_true_iff.
           destruct H as [H | H]; [now left | right; eauto].
        -- apply orb_true_iff. right. eauto.
      * simpl. intros H. apply orb_true_iff in H. apply orb_true_iff.
        destruct H as [H | H]; [now left | right; eauto].
    + intros H. apply orb_true_iff. right. eauto.
Qed.

Lemma sub_spaces_no_newline (s : string) (skip : nat) (pv : option ascii) :
  mem NL (sub_from (plus ws) " " skip pv s) = false.
Proof.
  revert skip pv. induction s as [| d s IH]; intros skip pv.
  - simpl. now destruct (match_at (plus ws) pv "").
  - cbn [sub_from]. destruct skip as [| skip]; [| apply IH].
    destruct (is_space d) eqn:Ed.
    + destruct (@spaces_match pv d s Ed) as [m [n [Hm Hn]]].
      rewrite Hm, Hn. rewrite mem_append. now rewrite IH.
    + assert (Hd : Ascii.eqb d NL = false).
      { destruct (Ascii.eqb_spec d NL) as [-> |]; [discriminate | reflexivity]. }
      destruct (match_at (plus ws) pv (String d s)) as [m |].
      * destruct (String.length (m_text m)); rewrite mem_append; simpl;
          rewrite ?Hd; simpl; apply IH.
      * simpl. rewrite Hd. simpl. apply IH.
Qed.

(** A class is found in a text exactly when one of its characters occurs
    there. *)
Lemma search_class (p : ascii -> bool) (pv : option ascii) (s : string) :
  match search_from (Cls p) pv s with
  | Some _ => true
  | None => false
  end = existsb p (list_ascii_of_string s).
Proof.
  revert pv. induction s as [| c s IH]; intros pv; [reflexivity |].
  cbn [search_from list_ascii_of_string existsb].
  unfold match_at. cbn [rmatch rest].
  destruct (p c); [reflexivity |]. apply IH.
Qed.

Section Greedy.

Variable p : ascii -> bool.
Variable A : Type.
Variable k : mstate -> option A.

Lemma star_class_greedy (n : nat) (pv : option ascii) (s : string)
    (cs : list (nat * string)) :
  (String.length s <= n)%nat ->
  k (run_to p pv s cs) <> None ->
  star_loop (rmatch (Cls p)) k n {| prev := pv; rest := s; caps := cs |}
  = k (run_to p pv s cs).
Proof.
  revert pv s. induction n as [| n IH]; intros pv s Hn Hk.
  - destruct s; [reflexivity | simpl in Hn; lia].
  - cbn [star_loop rmatch rest caps].
    destruct s as [| c s']; [reflexivity |].
    cbn [run_to] in *. destruct (p c); [| reflexivity].
    unfold progress. cbn [rest String.length].
    rewrite (proj2 (Nat.ltb_lt _ _) (Nat.lt_succ_diag_r _)).
    simpl in Hn. rewrite IH by (lia || assumption).
    now destruct (k (run_to p (Some c) s' cs)).
Qed.

End Greedy.

Lemma run_to_rest (pv : option ascii) (s : string) (cs : list (nat * string)) :
  rest (run_to is_word pv s cs) = after_run s.
Proof.
  revert pv. induction s as [| c s IH]; intros pv; simpl; [reflexivity |].
  destruct (is_word c); [apply IH | reflexivity].
Qed.

Lemma run_to_prev (pv : option ascii) (s : string) (cs : list (nat * string)) :
  word_at pv = true -> word_at (prev (run_to is_word pv s cs)) = true.
Proof.
  revert pv. induction s as [| c s IH]; intros pv H; simpl; [exact H |].
  destruct (is_word c) eqn:E; [now apply IH | exact H].
Qed.

Lemma run_to_caps (p : ascii -> bool) (pv : option ascii) (s : string)
    (cs : list (nat * string)) :
  caps (run_to p pv s cs) = cs.
Proof.
  revert pv. induction s as [| c s IH]; intros pv; simpl; [reflexivity |].
  destruct (p c); [apply IH | reflexivity].
Qed.

Lemma after_run_next (s : string) : word_at (next (after_run s)) = false.
Proof.
  induction s as [| c s IH]; simpl; [reflexivity |].
  destruct (is_word c) eqn:E; [exact IH | simpl; exact E].
Qed.

Lemma after_run_length (s : string) :
  (String.length (after_run s) <= String.length s)%nat.
Proof.
  induction s as [| c s IH]; simpl; [lia |].
  destruct (is_word c); simpl; lia.
Qed.

Lemma word_run_substring (s : string) :
  substring 0 (String.length s - String.length (after_run s)) s = word_run s.
Proof.
  induction s as [| c s IH]; [reflexivity |].
  simpl after_run. simpl word_run. destruct (is_word c).
  - change (String.length (String c s)) with (S (String.length s)).
    rewrite Nat.sub_succ_l by apply after_run_length.
    simpl. now rewrite IH.
  - now rewrite Nat.sub_diag.
Qed.

(** [\b\w+\b] at the first character of a word takes the word whole. *)
Lemma word_pattern_at_word (pv : option ascii) (c : ascii) (s : string) :
  word_at pv = false -> is_word c = true ->
  option_map m_text (match_at word_pattern pv (String c s))
  = Some (String c (word_run s)).
Proof.
  intros Hpv Hc.
  set (st0 := {| prev := pv; rest := String c s; caps := [] |}).
  set (k := fun st' : mstate =>
              rmatch WordB st'
                (fun st'' =>
                   Some {| m_text := consumed st0 st''; m_caps := caps st'';
                           m_rest := rest st'' |})).
  assert (E : match_at word_pattern pv (String c s)
              = star_loop (rmatch (Cls is_word)) k (String.length s)
                  {| prev := Some c; rest := s; caps := [] |}).
  { unfold match_at, word_pattern, plus, word. simpl.
    now rewrite Hpv, Hc. }
  assert (Hk : k (run_to is_word (Some c) s [])
               = Some {| m_text := String c (word_run s); m_caps := [];
                         m_rest := after_run s |}).
  { unfold k. cbn [rmatch]. rewrite run_to_rest, after_run_next.
    rewrite run_to_prev by exact Hc. cbn [xorb].
    unfold consumed. rewrite run_to_rest, run_to_caps. cbn [rest st0].
    assert (Hw : word_run (String c s) = String c (word_run s))
      by (simpl; now rewrite Hc).
    assert (Ha : after_run (String c s) = after_run s)
      by (simpl; now rewrite Hc).
    rewrite <- Hw, <- (word_run_substring (String c s)), Ha.
    reflexivity. }
  rewrite E, star_class_greedy; rewrite ?Hk;
    [reflexivity | apply Nat.le_refl | discriminate].
Qed.

(** ... and it does not match where no word begins. *)
Lemma word_pattern_elsewhere (pv : option ascii) (s : string) :
  word_at (next s) = false -> match_at word_pattern pv s = None.
Proof.
  intros H. unfold match_at, word_pattern, plus, word.
  cbn [rmatch prev rest]. rewrite H.
  destruct (xorb (word_at pv) false); [| reflexivity].
  destruct s as [| c s]; [reflexivity |].
  simpl in H. now rewrite H.
Qed.

Lemma word_tokens_run (c : ascii) (s : string) :
  is_word c = true ->
  word_tokens (String c s) = String c (word_run s) :: word_tokens (after_run s).
Proof.
  revert c. induction s as [| c' s IH]; intros c Hc.
  - simpl. now rewrite Hc.
  - change (word_tokens (String c (String c' s)))
      with (if is_word c
            then if is_word c' then push c (word_tokens (String c' s))
                 else String c "" :: word_tokens (String c' s)
            else word_tokens (String c' s)).
    rewrite Hc. cbn [word_run after_run].
    destruct (is_word c') eqn:E.
    + rewrite (IH c' E). reflexivity.
    + reflexivity.
Qed.

Lemma findall_words_from (s : string) :
  (forall pv, word_at pv = false \/ word_at (next s) = false ->
              findall_from word_pattern 0 pv s = word_tokens s)
  /\ (forall pv,
        findall_from word_pattern (String.length (word_run s)) pv s
        = word_tokens (after_run s)).
Proof.
  induction s as [| c s [IH1 IH2]].
  - split; intros pv; intros; simpl;
      now rewrite word_pattern_elsewhere.
  - assert (H1 : forall pv,
               word_at pv = false \/ word_at (next (String c s)) = false ->
               findall_from word_pattern 0 pv (String c s)
               = word_tokens (String c s)).
    { intros pv H. cbn [findall_from].
      destruct (is_word c) eqn:Ec.
      - destruct H as [H | H]; [| simpl in H; congruence].
        pose proof (@word_pattern_at_word pv c s H Ec) as Hm.
        destruct (match_at word_pattern pv (String c s)) as [m |];
          [| discriminate].
        simpl in Hm. injection Hm as Hm. rewrite Hm. cbn [String.length Nat.pred].
        rewrite IH2. now rewrite word_tokens_run.
      - rewrite word_pattern_elsewhere by exact Ec.
        rewrite IH1 by (left; exact Ec).
        destruct s; simpl; now rewrite Ec. }
    split; [exact H1 |].
    intros pv. cbn [word_run after_run]. destruct (is_word c) eqn:Ec.
    + cbn [String.length findall_from]. apply IH2.
    + apply H1. right. exact Ec.
Qed.

(** [re.findall(r'\b\w+\b', s)] is the list of the maximal runs of word
    characters of [s]. *)
Lemma findall_words (s : string) :
  Re.findall word_pattern s = word_tokens s.
Proof. apply findall_words_from. now left. Qed.


(** ** Construction of the matcher (C1) *)

Lemma init_default : JobMatcher.__init__ PyNone = Ok default_matcher.
Proof. reflexivity. Qed.

Lemma default_catalog_size :
  option_map (@List.length Row) (jobs_data default_matcher) = Some 10%nat.
Proof. reflexivity. Qed.

Lemma default_catalog_postings :
  option_map (map posting) (jobs_data default_matcher)
  = Some (map posting _load_default_jobs).
Proof. reflexivity. Qed.

Lemma init_empty_list : JobMatcher.__init__ (PyList []) = Ok default_matcher.
Proof. reflexivity. Qed.

(** No method assigns the catalog: every call leaves the matcher as it
    was. *)
Lemma methods_keep_matcher (self : JobMatcher) (p : Profile)
    (top_n : option Z) (job_id : Z) (query industry_name : string) :
  snd (match_resume_to_jobs p top_n self) = self
  /\ snd (get_job_details job_id self) = self
  /\ snd (search_jobs query top_n self) = self
  /\ snd (get_jobs_by_industry industry_name self) = self
  /\ snd (get_available_industries self) = self.
Proof.
  unfold match_resume_to_jobs, get_job_details, search_jobs,
    get_jobs_by_industry, get_available_industries, bind, get, ret, raise.
  cbn [fst snd].
  destruct (jobs_data self) as [df |]; [| repeat split].
  repeat split; try (destruct (empty df); reflexivity).
  destruct (_ <=? _)%Z; [reflexivity |].
  destruct (iloc df job_id); reflexivity.
Qed.

(** C1, on the code: a frame passed to the constructor has no truth value,
    so [jobs_data or ...] raises [ValueError] and no matcher is built; a
    plain sequence that is not empty gets as far as [.empty] and raises
    [AttributeError]; only the construction without catalog succeeds, with
    the ten default entries. *)
Theorem C1_supplied_catalog_raises :
  (forall df, JobMatcher.__init__ (PyFrame df) = Raise ValueError)
  /\ (forall j l, JobMatcher.__init__ (PyList (j :: l)) = Raise AttributeError)
  /\ (exists m df,
        JobMatcher.__init__ PyNone = Ok m /\ jobs_data m = Some df
        /\ List.length df = 10%nat).
Proof.
  split; [| split].
  - intros df. reflexivity.
  - intros j l. reflexivity.
  - exists default_matcher.
    exists (_prepare_jobs_data _load_default_jobs).
    repeat split.
Qed.

(** ** Factor scores (C2, C5, C6) *)

Section Ratios.

Variable text : string.

Lemma count_from_filter (xs : list string) (n : nat) :
  fold_left (fun n x => if contains x text then S n else n) xs n
  = (n + List.length (filter (fun x => contains x text) xs))%nat.
Proof.
  revert n. induction xs as [| x xs IH]; intros n; simpl.
  - lia.
  - rewrite IH. destruct (contains x text); simpl; lia.
Qed.

Lemma count_in_filter (xs : list string) :
  count_in xs text = List.length (filter (fun x => contains x text) xs).
Proof. unfold count_in. now rewrite count_from_filter. Qed.

Lemma count_in_le (xs : list string) :
  (count_in xs text <= List.length xs)%nat.
Proof. rewrite count_in_filter. apply filter_length_le. Qed.

Lemma truediv_unit (a b : nat) :
  (0 < b)%nat -> (a <= b)%nat -> 0 <= truediv a b <= 1.
Proof.
  intros Hb Hab. unfold truediv.
  assert (Hpos : 0 < inject_Z (Z.of_nat b)).
  { change 0 with (inject_Z 0). rewrite <- Zlt_Qlt. lia. }
  split.
  - apply Qle_shift_div_l; [exact Hpos |].
    rewrite Qmult_0_l. change 0 with (inject_Z 0). rewrite <- Zle_Qle. lia.
  - apply Qle_shift_div_r; [exact Hpos |].
    rewrite Qmult_1_l. rewrite <- Zle_Qle. lia.
Qed.

(** A share of the strings of a list is between 0 and 1. *)
Lemma ratio_unit (xs : list string) :
  0 <= match xs with
       | [] => 0
       | _ => truediv (count_in xs text) (List.length xs)
       end <= 1.
Proof.
  destruct xs as [| x xs'].
  - split; discriminate.
  - apply truediv_unit; [simpl; lia | apply count_in_le].
Qed.

End Ratios.

Lemma keyword_score_unit (resume_text : string) (j : JobPosting) :
  0 <= _calculate_keyword_score resume_text j <= 1.
Proof. unfold _calculate_keyword_score. apply ratio_unit. Qed.

Lemma title_match_unit (resume_text job_title : string) :
  0 <= _calculate_title_match resume_text job_title <= 1.
Proof. unfold _calculate_title_match. apply ratio_unit. Qed.

Lemma skills_match_unit (resume_text job_requirements : string) :
  0 <= _calculate_skills_match resume_text job_requirements <= 1.
Proof. unfold _calculate_skills_match. apply ratio_unit. Qed.

Lemma experience_match_values (resume_text job_experience : string) :
  _calculate_experience_match resume_text job_experience = 1 # 2
  \/ _calculate_experience_match resume_text job_experience = 0
  \/ _calculate_experience_match resume_text job_experience = 4 # 5.
Proof.
  unfold _calculate_experience_match.
  destruct (Re.search experience_pattern (lower job_experience)); [| now left].
  destruct (existsb _ experience_indicators); simpl; auto.
Qed.

Lemma experience_match_unit (resume_text job_experience : string) :
  0 <= _calculate_experience_match resume_text job_experience <= 1.
Proof.
  destruct (experience_match_values resume_text job_experience)
    as [-> | [-> | ->]]; split; discriminate.
Qed.

Lemma clamp_unit (x : Q) : 0 <= Qmin 1 (Qmax 0 x) <= 1.
Proof.
  split.
  - apply Q.min_glb; [discriminate | apply Q.le_max_l].
  - apply Q.le_min_l.
Qed.

Lemma weighted_sum (k t s e : Q) :
  Qmin 1 (Qmax 0 (0 + k * (2 # 5) + t * (1 # 5) + s * (1 # 4)
                  + e * (3 # 20)))
  == Qmin 1 (Qmax 0 ((2 # 5) * k + (1 # 5) * t + (1 # 4) * s
                     + (3 # 20) * e)).
Proof.
  assert (E : 0 + k * (2 # 5) + t * (1 # 5) + s * (1 # 4) + e * (3 # 20)
              == (2 # 5) * k + (1 # 5) * t + (1 # 4) * s + (3 # 20) * e)
    by ring.
  now rewrite E.
Qed.

(** C2: the total score of a profile and a posting is the weighted sum
    0.40 keyword + 0.20 title + 0.25 skills + 0.15 experience, clamped to
    [0,1]; the four weights add up to 1; each factor is in [0,1]. *)
Theorem C2_total_score (p : Profile) (j : JobPosting) :
  let resume_text := _prepare_resume_text p in
  let keyword := _calculate_keyword_score resume_text j in
  let title_ := _calculate_title_match resume_text (JobMatcher.title j) in
  let skills_ := _calculate_skills_match resume_text (requirements j) in
  let experience_ :=
    _calculate_experience_match resume_text (JobMatcher.experience j) in
  _calculate_job_match_score resume_text j
  == Qmin 1 (Qmax 0 ((2 # 5) * keyword + (1 # 5) * title_
                     + (1 # 4) * skills_ + (3 # 20) * experience_))
  /\ (2 # 5) + (1 # 5) + (1 # 4) + (3 # 20) == 1
  /\ 0 <= keyword <= 1
  /\ 0 <= title_ <= 1
  /\ 0 <= skills_ <= 1
  /\ 0 <= experience_ <= 1
  /\ 0 <= _calculate_job_match_score resume_text j <= 1.
Proof.
  intros resume_text keyword title_ skills_ experience_.
  split; [| split; [| split; [| split; [| split; [| split]]]]].
  - apply weighted_sum.
  - reflexivity.
  - apply keyword_score_unit.
  - apply title_match_unit.
  - apply skills_match_unit.
  - apply experience_match_unit.
  - apply clamp_unit.
Qed.

(** C5, as amended: the keyword factor is the number of word tokens of the
    requirements (the maximal runs of word characters of their lower-cased
    text), each occurrence counted, that are substrings of the lower-cased
    resume text, over the number of tokens; it is 0 when the requirements
    have no token. *)
Theorem C5_keyword_ratio (p : Profile) (j : JobPosting) :
  let resume_lower := lower (_prepare_resume_text p) in
  let tokens := word_tokens (lower (requirements j)) in
  _calculate_keyword_score (_prepare_resume_text p) j
  = match tokens with
    | [] => 0
    | _ => truediv
             (List.length (filter (fun t => contains t resume_lower) tokens))
             (List.length tokens)
    end.
Proof.
  intros resume_lower tokens. unfold _calculate_keyword_score.
  rewrite findall_words. fold tokens. fold resume_lower.
  destruct tokens as [| t ts]; [reflexivity |].
  now rewrite count_in_filter.
Qed.

(** C5 as stated fails: "Sales" occurs twice among the eight tokens of the
    requirements of the Sales Executive posting, and a resume with the word
    scores 2/8 where the distinct tokens would give 1/8. *)
Lemma C5_repeated_token_counted_twice :
  _calculate_keyword_score (_prepare_resume_text sales_profile) sales_job
  == 2 # 8
  /\ keyword_score_distinct (_prepare_resume_text sales_profile) sales_job
     == 1 # 8
  /\ ~ _calculate_keyword_score (_prepare_resume_text sales_profile) sales_job
       == keyword_score_distinct (_prepare_resume_text sales_profile)
            sales_job.
Proof.
  split; [| split].
  - vm_compute. reflexivity.
  - vm_compute. reflexivity.
  - intros H. vm_compute in H. discriminate H.
Qed.

(** C6: the experience factor is 0.5 when the pattern of years is not found
    in the posting's experience text; when it is found, whatever the two
    numbers captured, the factor is 0 for a resume with none of the
    indicator phrases and 0.8 for a resume with one. *)
Theorem C6_experience_factor (p : Profile) (j : JobPosting) :
  let resume_text := _prepare_resume_text p in
  let indicated :=
    existsb (fun indicator => contains indicator (lower resume_text))
            experience_indicators in
  let parsed :=
    Re.search experience_pattern (lower (JobMatcher.experience j)) in
  (parsed = None ->
   _calculate_experience_match resume_text (JobMatcher.experience j) = 1 # 2)
  /\ (forall m, parsed = Some m -> indicated = false ->
      _calculate_experience_match resume_text (JobMatcher.experience j) = 0)
  /\ (forall m, parsed = Some m -> indicated = true ->
      _calculate_experience_match resume_text (JobMatcher.experience j)
      = 4 # 5).
Proof.
  intros resume_text indicated parsed.
  unfold _calculate_experience_match. fold parsed. fold indicated.
  split; [| split].
  - intros ->. reflexivity.
  - intros m -> ->. reflexivity.
  - intros m -> ->. reflexivity.
Qed.

Lemma C6_experience_factor_witness :
  _calculate_experience_match (_prepare_resume_text sample_profile)
    "as agreed" = 1 # 2
  /\ _calculate_experience_match (_prepare_resume_text sales_profile)
       "5-8 years" = 0
  /\ _calculate_experience_match (_prepare_resume_text sample_profile)
       "5-8 years" = 4 # 5.
Proof.
  split; [| split].
  - apply (C6_experience_factor sample_profile
             (job "" "" "" "" "as agreed" "" "" "" "")).
    vm_compute. reflexivity.
  - apply (C6_experience_factor sales_profile
             (job "" "" "" "" "5-8 years" "" "" "" ""))
      with (m := {| m_text := "5-8 years";
                    m_caps := [(2%nat, "8"); (1%nat, "5")];
                    m_rest := "" |});
      vm_compute; reflexivity.
  - apply (C6_experience_factor sample_profile
             (job "" "" "" "" "5-8 years" "" "" "" ""))
      with (m := {| m_text := "5-8 years";
                    m_caps := [(2%nat, "8"); (1%nat, "5")];
                    m_rest := "" |});
      vm_compute; reflexivity.
Defined.

(** ** Ranking (C3) *)

Section Sorting.

Variable A : Type.
Variable key : A -> Q.

Lemma insert_reverse_perm (x : A) (l : list A) :
  Permutation (insert_reverse key x l) (x :: l).
Proof.
  induction l as [| y l IH]; simpl.
  - apply Permutation_refl.
  - destruct (Qle_bool (key y) (key x)).
    + apply Permutation_refl.
    + apply Permutation_trans with (y :: x :: l).
      * now apply perm_skip.
      * apply perm_swap.
Qed.

Lemma sort_reverse_perm (l : list A) : Permutation (sort_reverse key l) l.
Proof.
  induction l as [| x l IH]; simpl.
  - apply perm_nil.
  - apply Permutation_trans with (x :: sort_reverse key l).
    + apply insert_reverse_perm.
    + now apply perm_skip.
Qed.

Lemma insert_reverse_sorted (x : A) (l : list A) :
  StronglySorted (before key) l -> StronglySorted (before key) (insert_reverse key x l).
Proof.
  induction l as [| y l IH]; intros Hs; simpl.
  - constructor; constructor.
  - apply StronglySorted_inv in Hs. destruct Hs as [Hl Hy].
    destruct (Qle_bool (key y) (key x)) eqn:E.
    + apply Qle_bool_iff in E.
      constructor.
      * constructor; assumption.
      * constructor; [exact E |].
        eapply Forall_impl; [| exact Hy].
        intros b Hb. unfold before in *. now apply Qle_trans with (key y).
    + assert (Hlt : key x < key y).
      { apply Qnot_le_lt. intros H. apply Qle_bool_iff in H. congruence. }
      constructor.
      * now apply IH.
      * eapply Permutation_Forall.
        -- apply Permutation_sym. apply insert_reverse_perm.
        -- constructor; [now apply Qlt_le_weak | exact Hy].
Qed.

Lemma sort_reverse_sorted (l : list A) :
  StronglySorted (before key) (sort_reverse key l).
Proof.
  induction l as [| x l IH]; simpl.
  - constructor.
  - now apply insert_reverse_sorted.
Qed.

(** Stability: the elements of one key keep the order of the input. *)
Lemma insert_reverse_stable (v : Q) (x : A) (l : list A) :
  filter (fun a => Qeq_bool (key a) v) (insert_reverse key x l)
  = filter (fun a => Qeq_bool (key a) v) (x :: l).
Proof.
  induction l as [| y l IH]; [reflexivity |].
  simpl. destruct (Qle_bool (key y) (key x)) eqn:E; [reflexivity |].
  simpl. rewrite IH. simpl.
  destruct (Qeq_bool (key y) v) eqn:Ey; [| reflexivity].
  destruct (Qeq_bool (key x) v) eqn:Ex; [| reflexivity].
  apply Qeq_bool_iff in Ey, Ex.
  assert (H : Qle_bool (key y) (key x) = true).
  { apply Qle_bool_iff. rewrite Ey, Ex. apply Qle_refl. }
  congruence.
Qed.

Lemma sort_reverse_stable (v : Q) (l : list A) :
  filter (fun a => Qeq_bool (key a) v) (sort_reverse key l)
  = filter (fun a => Qeq_bool (key a) v) l.
Proof.
  induction l as [| x l IH]; [reflexivity |].
  simpl sort_reverse. rewrite insert_reverse_stable.
  simpl. now rewrite IH.
Qed.

Lemma firstn_sorted (n : nat) (l : list A) :
  StronglySorted (before key) l -> StronglySorted (before key) (firstn n l).
Proof.
  revert l. induction n as [| n IH]; intros l Hs; simpl.
  - constructor.
  - destruct l as [| a l]; [constructor |].
    apply StronglySorted_inv in Hs. destruct Hs as [Hl Ha].
    constructor; [now apply IH |].
    rewrite Forall_forall in *. intros b Hb. apply Ha.
    rewrite <- (firstn_skipn n l). apply in_or_app. now left.
Qed.

Lemma slice_to_sorted (n : Z) (l : list A) :
  StronglySorted (before key) l -> StronglySorted (before key) (slice_to n l).
Proof. unfold slice_to. destruct (n <? 0)%Z; apply firstn_sorted. Qed.

End Sorting.

Lemma slice_to_length (A : Type) (n : Z) (l : list A) :
  Z.of_nat (List.length (slice_to n l))
  = if (n <? 0)%Z then Z.max 0 (Z.of_nat (List.length l) + n)
    else Z.min n (Z.of_nat (List.length l)).
Proof.
  unfold slice_to. destruct (n <? 0)%Z eqn:E; rewrite length_firstn.
  - apply Z.ltb_lt in E. lia.
  - apply Z.ltb_ge in E. lia.
Qed.

Lemma iterrows_labels (df : DataFrame) :
  map fst (iterrows df) = seq 0 (List.length df).
Proof.
  unfold iterrows. generalize 0%nat.
  induction df as [| r df IH]; intros k; simpl; [reflexivity |].
  now rewrite IH.
Qed.

Lemma iterrows_rows (df : DataFrame) : map snd (iterrows df) = df.
Proof.
  unfold iterrows. generalize 0%nat.
  induction df as [| r df IH]; intros k; simpl; [reflexivity |].
  now rewrite IH.
Qed.

(** C3: matching builds one result per catalog entry, sorts them stably by
    decreasing total score and cuts the sorted list to its first [top_n]
    entries, 5 when no [top_n] is given; the list returned is sorted and
    has min(top_n, |catalog|) entries. *)
Theorem C3_ranking (p : Profile) (df : DataFrame) (top_n : option Z) :
  (0 <= or_default 5%Z top_n)%Z ->
  let self := {| jobs_data := Some df |} in
  let n := or_default 5%Z top_n in
  let ranked := sort_reverse match_score (all_matches p df) in
  match_resume_to_jobs p top_n self
  = (Ok (firstn (Z.to_nat n) ranked), self)
  /\ map job_id (all_matches p df) = seq 0 (List.length df)
  /\ map matched (all_matches p df) = map posting df
  /\ map match_score (all_matches p df)
     = map (fun row =>
              _calculate_job_match_score (_prepare_resume_text p)
                (posting row)) df
  /\ Permutation ranked (all_matches p df)
  /\ StronglySorted (before match_score) ranked
  /\ (forall v,
        filter (fun m => Qeq_bool (match_score m) v) ranked
        = filter (fun m => Qeq_bool (match_score m) v) (all_matches p df))
  /\ StronglySorted (before match_score) (firstn (Z.to_nat n) ranked)
  /\ Z.of_nat (List.length (firstn (Z.to_nat n) ranked))
     = Z.min n (Z.of_nat (List.length df)).
Proof.
  intros Hn self n ranked.
  assert (Hlen : List.length ranked = List.length df).
  { unfold ranked. rewrite (Permutation_length (sort_reverse_perm _ _)).
    unfold all_matches. rewrite length_map.
    rewrite <- (length_map snd). now rewrite iterrows_rows. }
  assert (Hcut : forall l : list MatchResult,
             slice_to n l = firstn (Z.to_nat n) l).
  { intros l. unfold slice_to.
    destruct (Z.ltb_spec n 0) as [Hneg | _]; [| reflexivity].
    unfold n in Hneg. lia. }
  repeat split.
  - unfold match_resume_to_jobs, bind, get, ret. simpl.
    destruct df as [| r df']; [| fold n; now rewrite Hcut].
    simpl. now rewrite firstn_nil.
  - unfold all_matches. rewrite map_map. simpl.
    apply iterrows_labels.
  - unfold all_matches. rewrite map_map. simpl.
    rewrite <- (iterrows_rows df) at 2. now rewrite map_map.
  - unfold all_matches. rewrite map_map. simpl.
    rewrite <- (iterrows_rows df) at 2. now rewrite map_map.
  - apply sort_reverse_perm.
  - apply sort_reverse_sorted.
  - intros v. apply sort_reverse_stable.
  - apply firstn_sorted. apply sort_reverse_sorted.
  - rewrite length_firstn, Hlen. unfold n in *. lia.
Qed.

Lemma C3_ranking_witness :
  let ranked :=
    firstn 3
      (sort_reverse match_score
         (all_matches sample_profile
            (_prepare_jobs_data _load_default_jobs))) in
  match_resume_to_jobs sample_profile (Some 3%Z) default_matcher
  = (Ok ranked, default_matcher)
  /\ Z.of_nat (List.length ranked) = Z.min 3 10.
Proof.
  assert (H : (0 <= or_default 5%Z (Some 3%Z))%Z) by (simpl; lia).
  pose proof (C3_ranking sample_profile
                (_prepare_jobs_data _load_default_jobs) (Some 3%Z) H) as K.
  cbv zeta in K.
  destruct K as [K1 [_ [_ [_ [_ [_ [_ [_ K2]]]]]]]].
  split; [exact K1 | exact K2].
Defined.

(** ** Catalog operations (C7) *)

Lemma get_job_details_beyond (df : DataFrame) (job_id : Z) :
  (Z.of_nat (List.length df) <= job_id)%Z ->
  get_job_details job_id {| jobs_data := Some df |}
  = (Ok [], {| jobs_data := Some df |}).
Proof.
  intros H. unfold get_job_details, bind, get, ret. simpl.
  apply Z.leb_le in H. now rewrite H.
Qed.

Lemma get_job_details_no_frame (job_id : Z) :
  get_job_details job_id {| jobs_data := None |}
  = (Ok [], {| jobs_data := None |}).
Proof. reflexivity. Qed.

Lemma unknown_industry_empty (df : DataFrame) (industry_name : string) :
  (forall row, In row df ->
     String.eqb (lower (industry (posting row))) (lower industry_name)
     = false) ->
  get_jobs_by_industry industry_name {| jobs_data := Some df |}
  = (Ok [], {| jobs_data := Some df |}).
Proof.
  intros H. unfold get_jobs_by_industry, bind, get, ret. simpl.
  destruct (empty df); [reflexivity |].
  replace (filter _ df) with (@nil Row); [reflexivity |].
  symmetry. induction df as [| r df IH]; [reflexivity |].
  simpl. rewrite (H r (or_introl eq_refl)).
  apply IH. intros row Hin. apply H. now right.
Qed.

Lemma empty_catalog_results (p : Profile) (query industry_name : string)
    (top_n : option Z) :
  let self := {| jobs_data := Some [] |} in
  match_resume_to_jobs p top_n self = (Ok [], self)
  /\ search_jobs query top_n self = (Ok [], self)
  /\ get_jobs_by_industry industry_name self = (Ok [], self)
  /\ get_available_industries self = (Ok [], self).
Proof. repeat split. Qed.

(** C7, on the code: the guard of [get_job_details] tests only
    [job_id >= len]; an id below [-len] passes it, and [iloc] raises
    [IndexError] where the specification has an empty record. *)
Theorem C7_lookup_below_range_raises (df : DataFrame) (job_id : Z) :
  (job_id < - Z.of_nat (List.length df))%Z ->
  get_job_details job_id {| jobs_data := Some df |}
  = (Raise IndexError, {| jobs_data := Some df |}).
Proof.
  intros H. unfold get_job_details, bind, get, ret, raise. simpl.
  destruct (Z.leb_spec (Z.of_nat (List.length df)) job_id) as [Hle | _];
    [lia |].
  unfold iloc.
  destruct (Z.ltb_spec job_id 0) as [_ | Hge]; [| lia].
  destruct (Z.ltb_spec (job_id + Z.of_nat (List.length df)) 0) as [_ | Hge];
    [reflexivity | lia].
Qed.

Lemma C7_lookup_below_range_raises_witness :
  get_job_details (-11) default_matcher = (Raise IndexError, default_matcher).
Proof.
  apply (@C7_lookup_below_range_raises
           (_prepare_jobs_data _load_default_jobs) (-11)%Z).
  vm_compute. reflexivity.
Defined.

(** ** Text normalisation and the name (C8, C10) *)

Lemma clean_text_no_newline (text : string) : mem NL (_clean_text text) = false.
Proof.
  unfold _clean_text.
  destruct (mem NL (strip _)) eqn:E; [| reflexivity].
  apply strip_mem in E. unfold Re.sub in E.
  apply sub_delete_mem in E.
  now rewrite sub_spaces_no_newline in E.
Qed.

Lemma clean_text_stripped (text : string) :
  strip (_clean_text text) = _clean_text text.
Proof. unfold _clean_text. apply strip_idem. Qed.

Lemma name_scan_find (lines : list string) :
  name_scan lines
  = match find qualifies (map strip lines) with
    | Some line => line
    | None => ""
    end.
Proof.
  induction lines as [| line lines IH]; [reflexivity |].
  simpl. unfold qualifies at 1.
  destruct (negb (is_empty (strip line))
            && (List.length (split_ws (strip line)) <=? 4)%nat);
    simpl; [| exact IH].
  destruct (negb (has_keyword (strip line))); [reflexivity | exact IH].
Qed.

Lemma extract_name_single_line (text : string) :
  mem NL text = false -> strip text = text ->
  _extract_name text = if qualifies text then text else "".
Proof.
  intros Hnl Hstrip. unfold _extract_name.
  rewrite (split_on_absent _ _ Hnl).
  change (slice_to 5 [text]) with [text].
  rewrite name_scan_find. cbn [map find]. rewrite Hstrip.
  now destruct (qualifies text).
Qed.

(** On the text of a profile, which is one stripped line, the test of the
    specification and the test of the code give the same name. *)
Lemma profile_name_spec (raw : string) :
  name (extract_structure raw) = first_line qualifies_spec (_clean_text raw).
Proof.
  unfold extract_structure. simpl.
  rewrite extract_name_single_line
    by (apply clean_text_no_newline || apply clean_text_stripped).
  unfold first_line.
  rewrite (split_on_absent _ _ (clean_text_no_newline raw)).
  cbn [firstn map find]. rewrite clean_text_stripped.
  unfold qualifies, qualifies_spec.
  destruct (_clean_text raw) as [| c t]; [reflexivity |].
  cbn [is_empty negb andb]. now destruct (_ && _).
Qed.

Lemma find_agree (A : Type) (f g : A -> bool) (l : list A) :
  Forall (fun x => f x = g x) l -> find f l = find g l.
Proof.
  induction 1 as [| x l Hx _ IH]; [reflexivity |].
  cbn [find]. now rewrite Hx, IH.
Qed.

(** C8: the name of a profile is the first of the first five lines of the
    normalised text that has at most four words and none of the seven
    metadata words, in any case of letters, and it is empty when no line
    qualifies; it is what [_extract_name] returns on the normalised text.
    [_extract_name] follows the same rule on every text whose first five
    lines are not blank. *)
Theorem C8_name_first_qualifying (raw text : string) :
  name (extract_structure raw) = _extract_name (_clean_text raw)
  /\ name (extract_structure raw)
     = first_line qualifies_spec (_clean_text raw)
  /\ (Forall (fun line => is_empty (strip line) = false)
             (firstn 5 (split_on NL text)) ->
      _extract_name text = first_line qualifies_spec text).
Proof.
  split; [reflexivity | split; [apply profile_name_spec |]].
  intros Hlines. unfold _extract_name, first_line.
  change (slice_to 5 (split_on NL text))
    with (firstn 5 (split_on NL text)).
  rewrite name_scan_find.
  rewrite (@find_agree _ qualifies qualifies_spec
             (map strip (firstn 5 (split_on NL text)))); [reflexivity |].
  rewrite Forall_map.
  eapply Forall_impl; [| exact Hlines].
  intros line Hline. unfold qualifies, qualifies_spec.
  now rewrite Hline.
Qed.

Lemma C8_name_first_qualifying_witness :
  first_line qualifies_spec ("Curriculum Vitae" ++ nl ++ "Jane Roe")
  = "Jane Roe"
  /\ _extract_name ("Curriculum Vitae" ++ nl ++ "Jane Roe")
     = first_line qualifies_spec ("Curriculum Vitae" ++ nl ++ "Jane Roe").
Proof.
  split; [reflexivity |].
  apply (C8_name_first_qualifying "" ("Curriculum Vitae" ++ nl ++ "Jane Roe")).
  repeat constructor.
Defined.

Lemma no_keyword (line : string) :
  has_keyword line = false ->
  Forall (fun keyword => contains keyword (lower line) = false)
         name_keywords.
Proof.
  unfold has_keyword. intros H.
  rewrite Forall_forall. intros keyword Hin.
  destruct (contains keyword (lower line)) eqn:E; [| reflexivity].
  rewrite <- H. symmetry. apply existsb_exists.
  exists keyword. split; [exact Hin |].
  replace (lower keyword) with keyword; [exact E |].
  unfold name_keywords in Hin. simpl in Hin.
  repeat (destruct Hin as [<- | Hin]; [reflexivity |]). contradiction.
Qed.

(** C10: the normalised text has no newline, so it is its own single
    line; and a profile has a name only if the whole normalised text has at
    most four words and contains no metadata word, the name being then
    that text. *)
Theorem C10_name_needs_short_text (raw : string) :
  let text := _clean_text raw in
  split_on NL text = [text]
  /\ (name (extract_structure raw) <> "" ->
      (List.length (split_ws text) <= 4)%nat
      /\ Forall (fun keyword => contains keyword (lower text) = false)
                name_keywords
      /\ name (extract_structure raw) = text).
Proof.
  intros text. split.
  - apply split_on_absent. apply clean_text_no_newline.
  - unfold extract_structure. simpl. fold text.
    rewrite extract_name_single_line
      by (apply clean_text_no_newline || apply clean_text_stripped).
    unfold qualifies.
    destruct (negb (is_empty text)); simpl; [| congruence].
    destruct (List.length (split_ws text) <=? 4)%nat eqn:Ew; simpl;
      [| congruence].
    destruct (has_keyword text) eqn:Ek; simpl; [congruence |].
    intros _. split; [now apply Nat.leb_le | split; [| reflexivity]].
    now apply no_keyword.
Qed.

Lemma C10_name_needs_short_text_witness :
  (List.length (split_ws (_clean_text ("Jane   Roe" ++ nl))) <= 4)%nat
  /\ Forall (fun keyword =>
               contains keyword (lower (_clean_text ("Jane   Roe" ++ nl)))
               = false) name_keywords
  /\ name (extract_structure ("Jane   Roe" ++ nl)) = _clean_text ("Jane   Roe" ++ nl).
Proof.
  apply (C10_name_needs_short_text ("Jane   Roe" ++ nl)).
  vm_compute. discriminate.
Defined.

(** ** The list tokenizer (C4) *)

(** The words kept by the fallback are the words of more than two
    characters. *)
Lemma long_words_filter (text : string) :
  long_words text
  = filter (fun w => (2 <? String.length w)%nat) (split_ws text).
Proof.
  unfold long_words.
  pose proof (split_ws_spaceless text) as H.
  induction H as [| w ws' Hw Hws IH]; [reflexivity |].
  simpl. rewrite (strip_spaceless _ Hw).
  destruct (2 <? String.length w)%nat; simpl;
    [rewrite (strip_spaceless _ Hw); now f_equal | exact IH].
Qed.

Lemma split_first_found (body : string) (before : list regex) (p : regex)
    (after : list regex) :
  Forall (fun q => Re.matches q body = false) before ->
  Re.matches p body = true ->
  split_first (before ++ p :: after) body = stripped (Re.split p body).
Proof.
  intros Hb Hp. induction Hb as [| q qs Hq Hqs IH]; simpl.
  - now rewrite Hp.
  - now rewrite Hq.
Qed.

Lemma split_first_none (body : string) (patterns : list regex) :
  Forall (fun q => Re.matches q body = false) patterns ->
  split_first patterns body = [].
Proof.
  intros H. induction H as [| q qs Hq Hqs IH]; simpl; [reflexivity |].
  now rewrite Hq.
Qed.

Lemma parse_skills_list_capped (body : string) :
  (List.length (_parse_skills_list body) <= 20)%nat.
Proof.
  unfold _parse_skills_list.
  change (slice_to 20) with (@firstn string 20).
  rewrite length_firstn. apply Nat.le_min_l.
Qed.

(** The first pattern is found in a body exactly when the body has a
    comma, a newline or a semicolon. *)
Lemma delimiter_found (body : string) :
  Re.matches (nth 0 skill_patterns Eps) body
  = existsb (fun c => Ascii.eqb c "," || Ascii.eqb c NL || Ascii.eqb c ";")
            (list_ascii_of_string body).
Proof. unfold Re.matches, Re.search. apply search_class. Qed.

(** C4, as amended: the three delimiter patterns are tried in order, and
    the body is split by the first one found in it, its pieces stripped
    and the empty ones dropped, when that leaves a token; when no pattern
    is found the tokens are the words of more than two characters; in all
    cases at most the first 20 tokens are kept, for the skills and for the
    languages and the certifications alike. *)
Theorem C4_list_tokenizer (body text : string) :
  (forall (before : list regex) (p : regex) (after : list regex),
      skill_patterns = (before ++ p :: after)%list ->
      Forall (fun q => Re.matches q body = false) before ->
      Re.matches p body = true ->
      stripped (Re.split p body) <> [] ->
      _parse_skills_list body = firstn 20 (stripped (Re.split p body)))
  /\ (Forall (fun q => Re.matches q body = false) skill_patterns ->
      _parse_skills_list body
      = firstn 20 (filter (fun w => (2 <? String.length w)%nat)
                          (split_ws body)))
  /\ (List.length (_extract_skills text) <= 20)%nat
  /\ (List.length (_extract_languages text) <= 20)%nat
  /\ (List.length (_extract_certifications text) <= 20)%nat.
Proof.
  split; [| split; [| split; [| split]]].
  - intros before p after E Hb Hp Hne.
    unfold _parse_skills_list. rewrite E.
    rewrite (@split_first_found body before p after Hb Hp).
    destruct (stripped (Re.split p body)); [congruence | reflexivity].
  - intros H. unfold _parse_skills_list.
    rewrite (@split_first_none body skill_patterns H).
    now rewrite long_words_filter.
  - unfold _extract_skills.
    destruct (first_section skills_patterns text);
      [apply parse_skills_list_capped | simpl; lia].
  - unfold _extract_languages.
    destruct (first_section lang_patterns text);
      [apply parse_skills_list_capped | simpl; lia].
  - unfold _extract_certifications.
    destruct (first_section cert_patterns text);
      [apply parse_skills_list_capped | simpl; lia].
Qed.

Lemma C4_list_tokenizer_witness :
  _parse_skills_list "Python, JavaScript; React"
  = ["Python"; "JavaScript"; "React"]
  /\ _parse_skills_list "Python and SQL & Go"
     = ["Python"; "SQL & Go"]
  /\ _parse_skills_list "Python JavaScript Go"
     = ["Python"; "JavaScript"].
Proof.
  split; [| split].
  - destruct (C4_list_tokenizer "Python, JavaScript; React" "") as [H _].
    rewrite (H [] (nth 0 skill_patterns Eps) (tl skill_patterns));
      [reflexivity | reflexivity | constructor | reflexivity
      | vm_compute; discriminate].
  - destruct (C4_list_tokenizer "Python and SQL & Go" "") as [H _].
    rewrite (H [nth 0 skill_patterns Eps] (nth 1 skill_patterns Eps)
               [nth 2 skill_patterns Eps]);
      [reflexivity | reflexivity | repeat constructor | reflexivity
      | vm_compute; discriminate].
  - destruct (C4_list_tokenizer "Python JavaScript Go" "") as [_ [H _]].
    rewrite H; [reflexivity | repeat constructor].
Defined.

(** C4 as stated fails for the languages: of twenty-one languages the
    profile keeps twenty. *)
Lemma C4_languages_capped :
  stripped (Re.split (nth 0 skill_patterns Eps)
              (substring 11 200 many_languages)) = twenty_one
  /\ languages (extract_structure many_languages) = firstn 20 twenty_one
  /\ languages (extract_structure many_languages) <> twenty_one.
Proof.
  split; [| split].
  - vm_compute. reflexivity.
  - vm_compute. reflexivity.
  - vm_compute. discriminate.
Qed.

(** ** Checks on instances *)

Example tokenizer_mixed_delimiters :
  _parse_skills_list "Python, JavaScript; React"
  = ["Python"; "JavaScript"; "React"].
Proof. reflexivity. Qed.

Example segmenter_two_records :
  _parse_experience_entries
    ("Senior Engineer" ++ nl ++ "Built the platform" ++ nl ++ nl
     ++ "Junior Analyst")
  = [ {| ResumeParser.title := "Senior Engineer";
         ResumeParser.description := Some "Built the platform" |};
      {| ResumeParser.title := "Junior Analyst";
         ResumeParser.description := None |} ].
Proof. reflexivity. Qed.

Example no_contact_patterns :
  contact_info (extract_structure "Jane Roe, analyst")
  = {| email := None; phone := None; linkedin := None |}.
Proof. reflexivity. Qed.

Example sample_profile_fields :
  name sample_profile = ""
  /\ skills sample_profile = ["Python"; "AWS"; "Docker"]
  /\ raw_text sample_profile
     = "Jane Roe Professional experience in sales Skills: Python, AWS; Docker".
Proof. repeat split. Qed.

Example sales_job_in_catalog :
  nth_error (map posting _load_default_jobs) 6 = Some sales_job.
Proof. reflexivity. Qed.

Example lookup_last_from_the_end :
  returned (get_job_details (-1) default_matcher)
  = option_map (fun row => details (posting row))
               (nth_error _load_default_jobs 9).
Proof. reflexivity. Qed.


(** * Further properties *)

(** ** Substrings *)

Lemma append_assoc_s (a b c : string) : (a ++ b) ++ c = a ++ b ++ c.
Proof. induction a as [| x a IH]; simpl; [reflexivity | now rewrite IH]. Qed.

Lemma append_nil_r (a : string) : a ++ "" = a.
Proof. induction a as [| x a IH]; simpl; [reflexivity | now rewrite IH]. Qed.

Lemma prefix_append (x b : string) : prefix x (x ++ b) = true.
Proof.
  induction x as [| c x IH]; simpl; [now destruct b |].
  destruct (ascii_dec c c) as [_ | N]; [exact IH | contradiction].
Qed.

Lemma prefix_split (x y : string) :
  prefix x y = true -> exists b, y = x ++ b.
Proof.
  revert y. induction x as [| c x IH]; intros y H.
  - now exists y.
  - destruct y as [| d y]; [discriminate |]. simpl in H.
    destruct (ascii_dec c d) as [-> | _]; [| discriminate].
    destruct (IH y H) as [b ->]. now exists b.
Qed.

(** [x in y] holds exactly when [y] is [x] between two strings. *)
Lemma contains_iff (x y : string) :
  contains x y = true <-> exists a b, y = a ++ x ++ b.
Proof.
  split.
  - induction y as [| d y IH]; cbn [contains]; intros H.
    + destruct (prefix x "") eqn:E; [| discriminate].
      destruct (prefix_split _ _ E) as [b Hb]. now exists "", b.
    + destruct (prefix x (String d y)) eqn:E.
      * destruct (prefix_split _ _ E) as [b Hb]. now exists "", b.
      * destruct (IH H) as [a [b ->]]. now exists (String d a), b.
  - intros [a [b ->]]. induction a as [| d a IH].
    + simpl. destruct (x ++ b) eqn:E; cbn [contains];
        rewrite <- E, prefix_append; reflexivity.
    + cbn [append contains]. rewrite IH. now destruct (prefix _ _).
Qed.

Lemma contains_trans (x y z : string) :
  contains x y = true -> contains y z = true -> contains x z = true.
Proof.
  rewrite !contains_iff. intros [a [b ->]] [a' [b' ->]].
  exists (a' ++ a), (b ++ b'). now rewrite !append_assoc_s.
Qed.

Lemma contains_suffix (x a y : string) :
  contains x y = true -> contains x (a ++ y) = true.
Proof.
  rewrite !contains_iff. intros [a' [b ->]].
  exists (a ++ a'), b. now rewrite append_assoc_s.
Qed.

Lemma contains_empty (y : string) : contains "" y = true.
Proof. apply contains_iff. now exists "", y. Qed.

Lemma contains_refl (y : string) : contains y y = true.
Proof. apply contains_iff. exists "", "". simpl. now rewrite append_nil_r. Qed.

Lemma nothing_in_empty (c : ascii) (x : string) :
  contains (String c x) "" = false.
Proof. reflexivity. Qed.

Lemma lower_append (a b : string) : lower (a ++ b) = lower a ++ lower b.
Proof. induction a as [| c a IH]; simpl; [reflexivity | now rewrite IH]. Qed.

(** The last parts of a joined list end the joined string. *)
Lemma join_suffix (sep : string) (l1 l2 : list string) :
  exists a, join sep (l1 ++ l2)%list = a ++ join sep l2.
Proof.
  induction l1 as [| p l1 [a IH]].
  - now exists "".
  - destruct l1 as [| q l1].
    + destruct l2 as [| r l2].
      * exists p. simpl. now rewrite append_nil_r.
      * exists (p ++ sep). cbn [app join]. now rewrite append_assoc_s.
    + exists (p ++ sep ++ a).
      change (join sep ((p :: q :: l1) ++ l2)%list)
        with (p ++ sep ++ join sep ((q :: l1) ++ l2)%list).
      rewrite IH. now rewrite !append_assoc_s.
Qed.

(** ** The score grows with the resume text *)

Section Growth.

Variables r1 r2 : string.
Hypothesis r1_in_r2 : contains (lower r1) (lower r2) = true.

Lemma count_in_grows (xs : list string) :
  (count_in xs (lower r1) <= count_in xs (lower r2))%nat.
Proof.
  rewrite !count_in_filter.
  induction xs as [| x xs IH]; simpl; [lia |].
  destruct (contains x (lower r1)) eqn:E.
  - rewrite (contains_trans _ _ _ E r1_in_r2). simpl. lia.
  - destruct (contains x (lower r2)); simpl; lia.
Qed.

Lemma truediv_grows (a b n : nat) :
  (a <= b)%nat -> (0 < n)%nat -> truediv a n <= truediv b n.
Proof.
  intros Hab Hn. unfold truediv.
  apply Qmult_le_compat_r.
  - rewrite <- Zle_Qle. lia.
  - apply Qinv_le_0_compat. change 0 with (inject_Z 0).
    rewrite <- Zle_Qle. lia.
Qed.

Lemma ratio_grows (xs : list string) :
  match xs with
  | [] => 0
  | _ => truediv (count_in xs (lower r1)) (List.length xs)
  end
  <= match xs with
     | [] => 0
     | _ => truediv (count_in xs (lower r2)) (List.length xs)
     end.
Proof.
  destruct xs as [| x xs']; [apply Qle_refl |].
  apply truediv_grows; [apply count_in_grows | simpl; lia].
Qed.

Lemma experience_match_grows (job_experience : string) :
  _calculate_experience_match r1 job_experience
  <= _calculate_experience_match r2 job_experience.
Proof.
  unfold _calculate_experience_match.
  destruct (Re.search experience_pattern (lower job_experience));
    [| apply Qle_refl].
  destruct (existsb (fun i => contains i (lower r1)) experience_indicators)
    eqn:E1.
  - apply existsb_exists in E1. destruct E1 as [i [Hin Hi]].
    assert (E2 : existsb (fun i => contains i (lower r2))
                   experience_indicators = true).
    { apply existsb_exists. exists i. split; [exact Hin |].
      exact (contains_trans _ _ _ Hi r1_in_r2). }
    rewrite E2. apply Qle_refl.
  - cbn [negb].
    match goal with |- _ <= (if ?b then _ else _) => destruct b end; lra.
Qed.

Lemma job_match_score_grows (j : JobPosting) :
  _calculate_job_match_score r1 j <= _calculate_job_match_score r2 j.
Proof.
  unfold _calculate_job_match_score.
  apply Q.min_le_compat_l. apply Q.max_le_compat_l.
  pose proof (ratio_grows (Re.findall word_pattern (lower (requirements j))))
    as Hk.
  pose proof (ratio_grows
                (Re.findall word_pattern (lower (JobMatcher.title j))))
    as Ht.
  pose proof (ratio_grows
                (filter (fun skill => contains skill (lower (requirements j)))
                        technical_skills)) as Hs.
  pose proof (experience_match_grows (JobMatcher.experience j)) as He.
  unfold _calculate_keyword_score, _calculate_title_match,
    _calculate_skills_match.
  lra.
Qed.

End Growth.

(** X1: the score of a resume text grows with the text: what is found in a
    text is found in every text that contains it. *)
Theorem X1_score_grows_with_text (r1 r2 : string) (j : JobPosting) :
  contains (lower r1) (lower r2) = true ->
  _calculate_job_match_score r1 j <= _calculate_job_match_score r2 j.
Proof. intros H. now apply job_match_score_grows. Qed.

Lemma X1_score_grows_with_text_witness :
  _calculate_job_match_score "python" sales_job
  <= _calculate_job_match_score "Python and B2B sales" sales_job.
Proof.
  apply (@X1_score_grows_with_text "python" "Python and B2B sales" sales_job).
  reflexivity.
Defined.

Lemma raw_text_in_resume_text (p : Profile) :
  contains (lower (raw_text p)) (lower (_prepare_resume_text p)) = true.
Proof.
  unfold _prepare_resume_text. rewrite !app_assoc.
  match goal with
  | |- context [join " " (?l ++ if_text ?r)%list] =>
      destruct (join_suffix " " l (if_text r)) as [a ->]
  end.
  rewrite lower_append. apply contains_suffix.
  unfold if_text. destruct (raw_text p) as [| c t].
  - apply contains_empty.
  - cbn [is_empty join]. apply contains_refl.
Qed.

(** X2: the text matched against the postings ends with the normalised text of
    the resume, so a profile scores at least what its text alone scores. *)
Theorem X2_profile_scores_at_least_its_text (p : Profile) (j : JobPosting) :
  _calculate_job_match_score (raw_text p) j
  <= _calculate_job_match_score (_prepare_resume_text p) j.
Proof. apply job_match_score_grows. apply raw_text_in_resume_text. Qed.

(** ** The empty resume *)

Lemma word_tokens_nonempty (s : string) :
  Forall (fun w => w <> "") (word_tokens s).
Proof.
  induction s as [| c s IH]; [constructor |].
  cbn [word_tokens]. destruct (is_word c); [| exact IH].
  destruct s as [| c' s']; [repeat constructor; discriminate |].
  destruct (is_word c').
  - destruct (word_tokens (String c' s')) as [| w ws'];
      simpl; constructor; try discriminate.
    + constructor.
    + now inversion IH.
  - constructor; [discriminate | exact IH].
Qed.

Lemma count_in_empty (xs : list string) :
  Forall (fun w => w <> "") xs -> count_in xs "" = O.
Proof.
  intros H. rewrite count_in_filter.
  induction H as [| w ws' Hw Hws IH]; [reflexivity |].
  simpl. destruct w; [contradiction | exact IH].
Qed.

Lemma truediv_zero (n : nat) : truediv 0 n == 0.
Proof. unfold truediv. simpl. apply Qmult_0_l. Qed.

Lemma ratio_empty (xs : list string) :
  Forall (fun w => w <> "") xs ->
  match xs with
  | [] => 0
  | _ => truediv (count_in xs "") (List.length xs)
  end == 0.
Proof.
  intros H. destruct xs as [| x xs']; [reflexivity |].
  rewrite (count_in_empty H). apply truediv_zero.
Qed.

Lemma technical_skills_nonempty :
  Forall (fun w => w <> "") technical_skills.
Proof. unfold technical_skills. repeat constructor; discriminate. Qed.

Lemma Forall_filter (A : Type) (P : A -> Prop) (f : A -> bool)
    (l : list A) :
  Forall P l -> Forall P (filter f l).
Proof.
  intros H. induction H as [| x l Hx Hl IH]; simpl; [constructor |].
  destruct (f x); [now constructor | exact IH].
Qed.

(** X3: an empty resume text has no keyword, no title word and no skill: its
    score is what the experience factor gives, 0.5 x 0.15 for a posting
    without a pattern of years and nothing for the others. *)
Theorem X3_empty_resume_score (j : JobPosting) :
  _calculate_job_match_score "" j
  == if Re.matches experience_pattern (lower (JobMatcher.experience j))
     then 0 else 3 # 40.
Proof.
  unfold _calculate_job_match_score.
  assert (Hk : _calculate_keyword_score "" j == 0).
  { unfold _calculate_keyword_score. rewrite findall_words.
    apply ratio_empty, word_tokens_nonempty. }
  assert (Ht : _calculate_title_match "" (JobMatcher.title j) == 0).
  { unfold _calculate_title_match. rewrite findall_words.
    apply ratio_empty, word_tokens_nonempty. }
  assert (Hs : _calculate_skills_match "" (requirements j) == 0).
  { unfold _calculate_skills_match.
    apply ratio_empty, Forall_filter, technical_skills_nonempty. }
  rewrite Hk, Ht, Hs.
  unfold _calculate_experience_match, Re.matches.
  destruct (Re.search experience_pattern (lower (JobMatcher.experience j)));
    reflexivity.
Qed.

(** ** Searching and browsing the catalog *)

Lemma iterrows_from (k : nat) (df : DataFrame) (i : nat) (row : Row) :
  In (i, row) (combine (seq k (List.length df)) df) ->
  (k <= i)%nat /\ nth_error df (i - k) = Some row.
Proof.
  revert k. induction df as [| r df IH]; intros k H; [contradiction |].
  simpl in H. destruct H as [H | H].
  - injection H as <- <-. split; [lia |]. now rewrite Nat.sub_diag.
  - destruct (IH (S k) H) as [Hle Hnth]. split; [lia |].
    replace (i - k)%nat with (S (i - S k)) by lia. exact Hnth.
Qed.

Lemma iterrows_nth (df : DataFrame) (i : nat) (row : Row) :
  In (i, row) (iterrows df) -> nth_error df i = Some row.
Proof.
  intros H. apply iterrows_from in H. destruct H as [_ H].
  now rewrite Nat.sub_0_r in H.
Qed.

Lemma nth_iterrows (df : DataFrame) (i : nat) (row : Row) :
  nth_error df i = Some row -> In (i, row) (iterrows df).
Proof.
  unfold iterrows. replace i with (0 + i)%nat at 2 by reflexivity.
  generalize 0%nat as k. revert i.
  induction df as [| r df IH]; intros i k H; [now destruct i |].
  destruct i as [| i]; simpl in *.
  - injection H as ->. left. now rewrite Nat.add_0_r.
  - right. replace (k + S i)%nat with (S k + i)%nat by lia. now apply IH.
Qed.

Lemma in_firstn (A : Type) (n : nat) (l : list A) (x : A) :
  In x (firstn n l) -> In x l.
Proof.
  intros H. rewrite <- (firstn_skipn n l). apply in_or_app. now left.
Qed.

Lemma in_slice_to (A : Type) (n : Z) (l : list A) (x : A) :
  In x (slice_to n l) -> In x l.
Proof. unfold slice_to. destruct (n <? 0)%Z; apply in_firstn. Qed.

Lemma firstn_increasing (n : nat) (l : list nat) :
  StronglySorted lt l -> StronglySorted lt (firstn n l).
Proof.
  revert l. induction n as [| n IH]; intros l Hs; simpl; [constructor |].
  destruct l as [| a l]; [constructor |].
  apply StronglySorted_inv in Hs. destruct Hs as [Hl Ha].
  constructor; [now apply IH |].
  rewrite Forall_forall in *. intros b Hb. apply Ha.
  rewrite <- (firstn_skipn n l). apply in_or_app. now left.
Qed.

Lemma seq_increasing (len start : nat) : StronglySorted lt (seq start len).
Proof.
  revert start. induction len as [| len IH]; intros start; simpl;
    constructor; [apply IH |].
  rewrite Forall_forall. intros b Hb. apply in_seq in Hb. lia.
Qed.

Lemma filter_increasing (A : Type) (key : A -> nat) (f : A -> bool)
    (l : list A) :
  StronglySorted lt (map key l) -> StronglySorted lt (map key (filter f l)).
Proof.
  induction l as [| a l IH]; intros Hs; simpl; [constructor |].
  simpl in Hs. apply StronglySorted_inv in Hs. destruct Hs as [Hl Ha].
  destruct (f a); [| now apply IH].
  simpl. constructor; [now apply IH |].
  rewrite Forall_forall in *. intros b Hb. apply Ha.
  apply in_map_iff in Hb. destruct Hb as [x [<- Hx]].
  apply in_map. now apply filter_In in Hx.
Qed.

Lemma search_jobs_hits (query : string) (top_n : option Z)
    (df : DataFrame) :
  search_jobs query top_n {| jobs_data := Some df |}
  = (Ok (slice_to (or_default 5%Z top_n) (hits query df)),
     {| jobs_data := Some df |}).
Proof.
  unfold search_jobs, bind, get, ret. simpl.
  destruct df as [| r df']; [| reflexivity].
  unfold hits, slice_to. simpl. now destruct (_ <? _)%Z; rewrite firstn_nil.
Qed.

Lemma hits_sound (query : string) (df : DataFrame) (i : nat)
    (j : JobPosting) :
  In (i, j) (hits query df) <->
  exists row, nth_error df i = Some row /\ posting row = j
              /\ query_matches (lower query) j = true.
Proof.
  unfold hits. rewrite in_map_iff. split.
  - intros [[i' row] [E H]]. simpl in E. injection E as -> <-.
    apply filter_In in H. destruct H as [Hin Hq].
    exists row. repeat split; [now apply iterrows_nth | exact Hq].
  - intros [row [Hn [<- Hq]]]. exists (i, row). split; [reflexivity |].
    apply filter_In. split; [now apply nth_iterrows | exact Hq].
Qed.

Lemma hits_increasing (query : string) (df : DataFrame) :
  StronglySorted lt (map fst (hits query df)).
Proof.
  unfold hits. rewrite map_map. simpl.
  apply filter_increasing. rewrite iterrows_labels. apply seq_increasing.
Qed.

(** X4: every result of a search is a posting of the catalog, given with its
    position, that has the query in its title, company, description or
    requirements, letter case apart; the results come in catalog order; and
    when [top_n] is at least the size of the catalog no such posting is left
    out. *)
Theorem X4_search_jobs_sound_ordered_complete (query : string)
    (top_n : option Z) (df : DataFrame) :
  exists results,
    search_jobs query top_n {| jobs_data := Some df |}
    = (Ok results, {| jobs_data := Some df |})
    /\ (forall i j, In (i, j) results ->
          exists row, nth_error df i = Some row /\ posting row = j
                      /\ query_matches (lower query) j = true)
    /\ StronglySorted lt (map fst results)
    /\ ((Z.of_nat (List.length df) <= or_default 5%Z top_n)%Z ->
        forall i row,
          nth_error df i = Some row ->
          query_matches (lower query) (posting row) = true ->
          In (i, posting row) results).
Proof.
  exists (slice_to (or_default 5%Z top_n) (hits query df)).
  split; [apply search_jobs_hits | split; [| split]].
  - intros i j H. apply hits_sound. now apply in_slice_to in H.
  - unfold slice_to. destruct (_ <? _)%Z; rewrite <- firstn_map;
      apply firstn_increasing, hits_increasing.
  - intros Hn i row Hrow Hq.
    assert (Hlen : (List.length (hits query df) <= List.length df)%nat).
    { unfold hits. rewrite length_map.
      etransitivity; [apply filter_length_le |].
      unfold iterrows. rewrite length_combine, length_seq. lia. }
    unfold slice_to.
    destruct (Z.ltb_spec (or_default 5%Z top_n) 0) as [Hneg | _]; [lia |].
    rewrite firstn_all2 by lia.
    apply hits_sound. now exists row.
Qed.

Lemma X4_search_jobs_sound_ordered_complete_witness :
  exists results,
    search_jobs "sales" (Some 10%Z) default_matcher
    = (Ok results, default_matcher)
    /\ In (6%nat, sales_job) results.
Proof.
  destruct (X4_search_jobs_sound_ordered_complete "sales" (Some 10%Z)
              (_prepare_jobs_data _load_default_jobs))
    as [results [E [_ [_ H]]]].
  exists results. split; [exact E |].
  apply (H ltac:(vm_compute; discriminate) 6%nat
           (nth 6 (_prepare_jobs_data _load_default_jobs)
                {| posting := sales_job; combined_text := None |}));
    reflexivity.
Defined.

(** X5: every posting has the empty query: a search for it returns the catalog
    in order, cut to [top_n]. *)
Theorem X5_search_jobs_empty_query (top_n : option Z) (df : DataFrame) :
  search_jobs "" top_n {| jobs_data := Some df |}
  = (Ok (slice_to (or_default 5%Z top_n)
           (map (fun r => (fst r, posting (snd r))) (iterrows df))),
     {| jobs_data := Some df |}).
Proof.
  rewrite search_jobs_hits. unfold hits.
  assert (E : forall l : list (nat * Row),
             filter (fun r => query_matches (lower "") (posting (snd r))) l
             = l).
  { induction l as [| r l IH]; [reflexivity |].
    cbn [filter].
    replace (query_matches (lower "") (posting (snd r))) with true;
      [now rewrite IH |].
    unfold query_matches. cbn [lower]. now rewrite contains_empty. }
  now rewrite E.
Qed.

Lemma unique_in (x : string) (l : list string) :
  In x (unique l) <-> In x l.
Proof.
  induction l as [| y l IH]; [reflexivity |].
  cbn [unique]. split.
  - intros [-> | H]; [now left |].
    apply filter_In in H. right. now apply IH.
  - intros [-> | H]; [now left |].
    destruct (String.eqb_spec y x) as [-> | N]; [now left |].
    right. apply filter_In. split; [now apply IH |].
    destruct (String.eqb_spec y x); [contradiction | reflexivity].
Qed.

Lemma unique_nodup (l : list string) : NoDup (unique l).
Proof.
  induction l as [| y l IH]; [constructor |].
  cbn [unique]. constructor.
  - intros H. apply filter_In in H. destruct H as [_ H].
    now rewrite String.eqb_refl in H.
  - now apply NoDup_filter.
Qed.

(** X6: the industries listed are those of the postings, each once; every
    posting is returned for its own industry, however the letters of the name
    are cased; and every industry listed has a posting. *)
Theorem X6_industries_cover_the_catalog (df : DataFrame) :
  let self := {| jobs_data := Some df |} in
  exists industries,
    get_available_industries self = (Ok industries, self)
    /\ NoDup industries
    /\ (forall name,
          In name industries
          <-> exists row, In row df /\ industry (posting row) = name)
    /\ (forall row name,
          In row df -> lower name = lower (industry (posting row)) ->
          exists rows,
            get_jobs_by_industry name self = (Ok rows, self)
            /\ In row rows)
    /\ (forall name,
          In name industries ->
          exists row rows,
            get_jobs_by_industry name self = (Ok (row :: rows), self)).
Proof.
  intros self.
  exists (unique (map (fun row => industry (posting row)) df)).
  assert (Hby : forall name,
             get_jobs_by_industry name self
             = (Ok (filter (fun row =>
                              String.eqb (lower (industry (posting row)))
                                         (lower name)) df), self)).
  { intros name. unfold get_jobs_by_industry, bind, get, ret. simpl.
    now destruct df. }
  split; [| split; [| split; [| split]]].
  - unfold get_available_industries, bind, get, ret. simpl. now destruct df.
  - apply unique_nodup.
  - intros name. rewrite unique_in, in_map_iff.
    split; intros [row [H1 H2]]; exists row; tauto.
  - intros row name Hin Hname. eexists. split; [apply Hby |].
    apply filter_In. split; [exact Hin |].
    rewrite Hname. apply String.eqb_refl.
  - intros name Hin. apply unique_in, in_map_iff in Hin.
    destruct Hin as [row [Hname Hrow]].
    rewrite Hby.
    destruct (filter _ df) as [| r rs] eqn:E; [| now exists r, rs].
    assert (H : In row []).
    { rewrite <- E. apply filter_In. split; [exact Hrow |].
      rewrite Hname. apply String.eqb_refl. }
    contradiction.
Qed.

Lemma X6_industries_cover_the_catalog_witness :
  exists rows,
    get_jobs_by_industry "MARKETING" default_matcher
    = (Ok rows, default_matcher)
    /\ In (nth 9 (_prepare_jobs_data _load_default_jobs)
               {| posting := sales_job; combined_text := None |}) rows.
Proof.
  destruct (X6_industries_cover_the_catalog
              (_prepare_jobs_data _load_default_jobs))
    as [industries [_ [_ [_ [H _]]]]].
  apply H; [| reflexivity].
  do 9 right. left. reflexivity.
Defined.

(** ** Looking a posting up *)

(** X7: a position inside the catalog gives the details of the posting at that
    position; a negative id counts from the end, down to minus the size of the
    catalog. *)
Theorem X7_lookup_inside (df : DataFrame) (job_id : Z) :
  (- Z.of_nat (List.length df) <= job_id < Z.of_nat (List.length df))%Z ->
  exists row,
    nth_error df (Z.to_nat (job_id mod Z.of_nat (List.length df)))
    = Some row
    /\ get_job_details job_id {| jobs_data := Some df |}
       = (Ok (details (posting row)), {| jobs_data := Some df |}).
Proof.
  intros H. set (n := Z.of_nat (List.length df)) in *.
  set (k := (if (job_id <? 0)%Z then job_id + n else job_id)%Z).
  assert (Hk : (0 <= k < n)%Z).
  { unfold k. destruct (Z.ltb_spec job_id 0); lia. }
  assert (Hmod : (job_id mod n = k)%Z).
  { unfold k. destruct (Z.ltb_spec job_id 0).
    - symmetry. apply Z.mod_unique_pos with (q := (-1)%Z); lia.
    - apply Z.mod_small. lia. }
  destruct (nth_error df (Z.to_nat k)) as [row |] eqn:E.
  - exists row. rewrite Hmod. split; [exact E |].
    unfold get_job_details, bind, get, ret, raise. simpl. fold n.
    destruct (Z.leb_spec n job_id); [lia |].
    unfold iloc. fold n. fold k.
    destruct (Z.ltb_spec k 0); [lia |]. now rewrite E.
  - apply nth_error_None in E. lia.
Qed.

Lemma X7_lookup_inside_witness :
  exists row,
    nth_error (_prepare_jobs_data _load_default_jobs) 9 = Some row
    /\ get_job_details (-1) default_matcher
       = (Ok (details (posting row)), default_matcher).
Proof.
  apply (@X7_lookup_inside (_prepare_jobs_data _load_default_jobs) (-1)%Z).
  vm_compute. split; [discriminate | reflexivity].
Defined.

Lemma all_matches_ids (p : Profile) (df : DataFrame) :
  map job_id (all_matches p df) = seq 0 (List.length df).
Proof.
  unfold all_matches. rewrite map_map. simpl. apply iterrows_labels.
Qed.

Lemma nodup_firstn (A : Type) (n : nat) (l : list A) :
  NoDup l -> NoDup (firstn n l).
Proof.
  intros H. rewrite <- (firstn_skipn n l) in H.
  now apply NoDup_app_remove_r in H.
Qed.

(** X8: every match returned is the match of the catalog entry at its
    [job_id], with the score of that entry; no entry is returned twice; and
    looking the [job_id] up gives the details of the posting matched. *)
Theorem X8_match_then_lookup (p : Profile) (top_n : option Z)
    (df : DataFrame) :
  let self := {| jobs_data := Some df |} in
  exists results,
    match_resume_to_jobs p top_n self = (Ok results, self)
    /\ NoDup (map job_id results)
    /\ forall m,
         In m results ->
         (exists row,
            nth_error df (job_id m) = Some row
            /\ m = match_info (_prepare_resume_text p) (job_id m, row))
         /\ get_job_details (Z.of_nat (job_id m)) self
            = (Ok (details (matched m)), self).
Proof.
  intros self.
  set (ranked := sort_reverse match_score (all_matches p df)).
  assert (Hperm : Permutation ranked (all_matches p df))
    by apply sort_reverse_perm.
  pose proof (all_matches_ids p df) as Hids.
  exists (slice_to (or_default 5%Z top_n) ranked).
  split; [| split].
  - unfold match_resume_to_jobs, bind, get, ret. simpl.
    destruct df as [| r df']; [| reflexivity].
    simpl. unfold slice_to. now destruct (_ <? _)%Z; rewrite firstn_nil.
  - assert (Hnd : NoDup (map job_id ranked)).
    { apply Permutation_NoDup with (map job_id (all_matches p df)).
      - apply Permutation_map. now apply Permutation_sym.
      - rewrite Hids. apply seq_NoDup. }
    unfold slice_to.
    destruct (_ <? _)%Z; rewrite <- firstn_map; now apply nodup_firstn.
  - intros m Hm. apply in_slice_to in Hm.
    apply (Permutation_in _ Hperm) in Hm.
    unfold all_matches in Hm. apply in_map_iff in Hm.
    destruct Hm as [[i row] [<- Hin]].
    apply iterrows_nth in Hin. cbn [match_info job_id matched fst snd].
    split; [now exists row |].
    unfold get_job_details, bind, get, ret, raise. simpl.
    assert (Hlt : (i < List.length df)%nat)
      by (apply nth_error_Some; congruence).
    destruct (Z.leb_spec (Z.of_nat (List.length df)) (Z.of_nat i)); [lia |].
    unfold iloc.
    destruct (Z.ltb_spec (Z.of_nat i) 0); [lia |].
    destruct (Z.ltb_spec (Z.of_nat i) 0); [lia |].
    now rewrite Nat2Z.id, Hin.
Qed.

(** ** What the application shows *)

(** X10: the application matches the profile of the uploaded text against the
    default catalog with [top_n = 5]: whatever the text, it gets five matches
    of five different postings, the best first. *)
Theorem X10_five_matches_for_every_resume (raw : string) :
  exists results,
    match_resume_to_jobs (extract_structure raw) (Some 5%Z) default_matcher
    = (Ok results, default_matcher)
    /\ List.length results = 5%nat
    /\ NoDup (map job_id results)
    /\ StronglySorted (before match_score) results.
Proof.
  set (df := _prepare_jobs_data _load_default_jobs).
  set (ranked :=
         sort_reverse match_score (all_matches (extract_structure raw) df)).
  exists (firstn 5 ranked).
  assert (Hperm : Permutation ranked (all_matches (extract_structure raw) df))
    by apply sort_reverse_perm.
  assert (Hlen : List.length ranked = 10%nat).
  { rewrite (Permutation_length Hperm). unfold all_matches.
    now rewrite length_map. }
  split; [reflexivity | split; [| split]].
  - rewrite length_firstn, Hlen. reflexivity.
  - rewrite <- firstn_map. apply nodup_firstn.
    apply Permutation_NoDup
      with (map job_id (all_matches (extract_structure raw) df)).
    + apply Permutation_map. now apply Permutation_sym.
    + rewrite all_matches_ids. apply seq_NoDup.
  - apply firstn_sorted. apply sort_reverse_sorted.
Qed.

(** ** The normalised text *)

Lemma class_match (q : ascii -> bool) (pv : option ascii) (d : ascii)
    (s : string) :
  match_at (Cls q) pv (String d s)
  = if q d
    then Some {| m_text := String d ""; m_caps := []; m_rest := s |}
    else None.
Proof.
  unfold match_at. cbn [rmatch rest caps]. destruct (q d); [| reflexivity].
  unfold consumed. cbn [rest String.length].
  replace (S (String.length s) - String.length s)%nat with 1%nat by lia.
  now destruct s.
Qed.

(** A substitution that deletes the characters of a class leaves none of
    them. *)
Lemma sub_class_mem (q : ascii -> bool) (c : ascii) (s : string)
    (skip : nat) (pv : option ascii) :
  mem c (sub_from (Cls q) "" skip pv s) = true -> q c = false.
Proof.
  revert skip pv. induction s as [| d s IH]; intros skip pv.
  - simpl. discriminate.
  - cbn [sub_from]. destruct skip as [| skip]; [| apply IH].
    rewrite class_match. destruct (q d) eqn:E.
    + cbn [m_text String.length append]. apply IH.
    + cbn [mem]. intros H. apply orb_true_iff in H.
      destruct H as [H | H]; [| now apply IH in H].
      apply Ascii.eqb_eq in H. now subst.
Qed.

(** The substitution of a space for every run of whitespace leaves the
    characters that are not whitespace, and spaces. *)
Lemma sub_spaces_mem (c : ascii) (s : string) (skip : nat)
    (pv : option ascii) :
  mem c (sub_from (plus ws) " " skip pv s) = true ->
  c = " "%char \/ (is_space c = false /\ mem c s = true).
Proof.
  revert skip pv. induction s as [| d s IH]; intros skip pv.
  - simpl. discriminate.
  - assert (Hrec : forall k pv',
               mem c (sub_from (plus ws) " " k pv' s) = true ->
               c = " "%char
               \/ (is_space c = false /\ mem c (String d s) = true)).
    { intros k pv' H. destruct (IH k pv' H) as [-> | [H1 H2]];
        [now left | right]. split; [exact H1 |].
      cbn [mem]. rewrite H2. apply orb_true_r. }
    assert (Hsp : mem c " " = true -> c = " "%char).
    { cbn [mem]. rewrite orb_false_r. intros H. apply Ascii.eqb_eq in H.
      now subst. }
    cbn [sub_from]. destruct skip as [| skip]; [| apply Hrec].
    destruct (is_space d) eqn:Ed.
    + destruct (@spaces_match pv d s Ed) as [m [n [Hm Hn]]].
      rewrite Hm, Hn, mem_append. intros H. apply orb_true_iff in H.
      destruct H as [H | H]; [left; now apply Hsp | now apply Hrec in H].
    + assert (Hd : mem c (String d (sub_from (plus ws) " " 0 (Some d) s))
                   = true ->
                   c = " "%char
                   \/ (is_space c = false /\ mem c (String d s) = true)).
      { cbn [mem]. intros H. apply orb_true_iff in H.
        destruct H as [H | H]; [| now apply Hrec in H].
        apply Ascii.eqb_eq in H. subst d. right.
        split; [exact Ed |]. now rewrite Ascii.eqb_refl. }
      destruct (match_at (plus ws) pv (String d s)) as [m |]; [| exact Hd].
      destruct (String.length (m_text m)); rewrite mem_append; intros H;
        apply orb_true_iff in H;
        destruct H as [H | H];
        solve [left; now apply Hsp | now apply Hd | now apply Hrec in H].
Qed.

(** X11: the normalised text of a text of ASCII characters neither begins
    nor ends with whitespace; every character of it is a word character, a
    space or one of [- . , ; : ! ? ( )]; and its only whitespace is the
    space. *)
Theorem X11_clean_text_alphabet (raw : string) :
  ascii_text raw = true ->
  let text := _clean_text raw in
  strip text = text
  /\ forall c,
       mem c text = true ->
       clean_keep c = true /\ (is_space c = true -> c = " "%char).
Proof.
  intros _ text. split; [apply clean_text_stripped |].
  intros c H. unfold text, _clean_text in H. apply strip_mem in H.
  split.
  - apply sub_class_mem in H. now apply negb_false_iff in H.
  - apply sub_delete_mem, sub_spaces_mem in H.
    destruct H as [-> | [H _]]; [reflexivity | congruence].
Qed.

Lemma X11_clean_text_alphabet_witness :
  strip (_clean_text ("  Jane   Roe <jane@roe.org>" ++ nl))
  = _clean_text ("  Jane   Roe <jane@roe.org>" ++ nl)
  /\ clean_keep "J" = true.
Proof.
  pose proof (@X11_clean_text_alphabet
                ("  Jane   Roe <jane@roe.org>" ++ nl) eq_refl) as K.
  cbv zeta in K. destruct K as [K1 K2].
  split; [exact K1 | apply (K2 "J"%char); reflexivity].
Defined.

(** ** A blank document *)

Lemma blank_mem (s : string) (c : ascii) :
  blank s = true -> mem c s = true -> is_space c = true.
Proof.
  unfold blank. induction s as [| d s IH];
    cbn [list_ascii_of_string forallb mem]; [discriminate |].
  intros H Hc. apply andb_true_iff in H. destruct H as [Hd Hs].
  apply orb_true_iff in Hc. destruct Hc as [Hc | Hc]; [| now apply IH].
  apply Ascii.eqb_eq in Hc. now subst.
Qed.

Lemma lstrip_spaces (s : string) :
  (forall c, mem c s = true -> is_space c = true) -> lstrip s = "".
Proof.
  induction s as [| d s IH]; intros H; [reflexivity |].
  cbn [lstrip]. rewrite (H d) by (cbn [mem]; now rewrite Ascii.eqb_refl).
  apply IH. intros c Hc. apply H. cbn [mem]. rewrite Hc. apply orb_true_r.
Qed.

Lemma clean_text_blank (raw : string) :
  blank raw = true -> _clean_text raw = "".
Proof.
  intros Hb. unfold _clean_text, strip.
  rewrite lstrip_spaces; [reflexivity |].
  intros c H. apply sub_delete_mem, sub_spaces_mem in H.
  destruct H as [-> | [_ H]]; [reflexivity |].
  exact (blank_mem _ _ Hb H).
Qed.

(** X12: a text of whitespace alone, the empty text among them, gives the
    profile with every field empty. *)
Theorem X12_blank_text_empty_profile (raw : string) :
  blank raw = true -> extract_structure raw = empty_profile.
Proof.
  intros H. unfold extract_structure. rewrite (clean_text_blank _ H).
  reflexivity.
Qed.

Lemma X12_blank_text_empty_profile_witness :
  extract_structure (" " ++ nl ++ nl ++ "  ") = empty_profile.
Proof.
  apply (@X12_blank_text_empty_profile (" " ++ nl ++ nl ++ "  ")).
  reflexivity.
Defined.

(** ** Tokens and records *)

Lemma stripped_clean (l : list string) :
  Forall (fun t => t <> "" /\ strip t = t) (stripped l).
Proof.
  unfold stripped. induction l as [| x l IH]; simpl; [constructor |].
  destruct (strip x) as [| c t] eqn:E; simpl; [exact IH |].
  constructor; [| exact IH]. rewrite E. split; [discriminate |].
  rewrite <- E. apply strip_idem.
Qed.

Lemma long_words_clean (text : string) :
  Forall (fun t => t <> "" /\ strip t = t) (long_words text).
Proof.
  rewrite long_words_filter.
  pose proof (split_ws_spaceless text) as H.
  induction H as [| w ws' Hw Hws IH]; simpl; [constructor |].
  destruct (2 <? String.length w)%nat eqn:E; [| exact IH].
  constructor; [| exact IH].
  split; [| now apply strip_spaceless].
  intros ->. discriminate E.
Qed.

Lemma Forall_firstn_s (A : Type) (P : A -> Prop) (n : nat) (l : list A) :
  Forall P l -> Forall P (firstn n l).
Proof.
  intros H. rewrite Forall_forall in *. intros x Hx. apply H.
  rewrite <- (firstn_skipn n l). apply in_or_app. now left.
Qed.

(** X13: no token of a skills, languages or certifications list is blank, and
    none begins or ends with whitespace. *)
Theorem X13_tokens_not_blank (body : string) :
  Forall (fun t => t <> "" /\ strip t = t) (_parse_skills_list body).
Proof.
  unfold _parse_skills_list.
  change (slice_to 20) with (@firstn string 20).
  apply Forall_firstn_s.
  destruct (split_first skill_patterns body) as [| t ts] eqn:E.
  - apply long_words_clean.
  - rewrite <- E. unfold skill_patterns. cbn [split_first].
    repeat match goal with
           | |- context [if ?b then _ else _] => destruct b
           end; try apply stripped_clean; constructor.
Qed.

Lemma segment_titles (trigger : regex) (lines : list string)
    (current : option (string * option string))
    (entries : list (string * option string)) :
  map fst (segment trigger lines current entries)
  = (map fst entries ++ open_title current
     ++ filter (opens trigger) (map strip lines))%list.
Proof.
  assert (Hclose : forall cur ents,
             map fst (close cur ents)
             = (map fst ents ++ open_title cur)%list).
  { intros [e |] ents; simpl; [apply map_app | now rewrite app_nil_r]. }
  revert current entries.
  induction lines as [| line lines IH]; intros current entries.
  - cbn [segment map filter]. rewrite app_nil_r. apply Hclose.
  - cbn [segment map filter]. unfold opens at 1.
    destruct (is_empty (strip line)).
    + cbn [negb andb]. rewrite IH, Hclose. cbn [open_title app].
      now rewrite <- app_assoc.
    + cbn [negb andb]. destruct (Re.matches trigger (strip line)).
      * rewrite IH, Hclose. cbn [open_title fst].
        now rewrite <- app_assoc.
      * destruct current as [[head [body |]] |]; rewrite IH; reflexivity.
Qed.

(** X14: the records of a section are, in order, one for each line that is not
    blank and has a trigger word, with that line stripped as their title or
    degree: the lines before the first of them belong to no record. *)
Theorem X14_one_record_per_trigger_line (body : string) :
  map ResumeParser.title (_parse_experience_entries body)
  = filter (opens experience_trigger) (map strip (split_on NL body))
  /\ map degree (_parse_education_entries body)
     = filter (opens education_trigger) (map strip (split_on NL body))
  /\ map ResumeParser.title (_parse_project_entries body)
     = filter (opens project_trigger) (map strip (split_on NL body)).
Proof.
  unfold _parse_experience_entries, _parse_education_entries,
    _parse_project_entries.
  rewrite !map_map.
  repeat split;
    match goal with
    | |- map ?f (segment ?t ?l None []) = _ =>
        change (map f (segment t l None []))
          with (map fst (segment t l None []));
        apply segment_titles
    end.
Qed.

(** ** The phone *)

Lemma plus_prefix_match (p : regex) (pv : option ascii) (s : string) :
  match_at p pv s <> None ->
  match_at (Seq (Opt (chr "+")) p) pv s <> None.
Proof.
  unfold match_at. cbn [rmatch]. intros H.
  destruct (rmatch (chr "+") _ _); [discriminate | exact H].
Qed.

Lemma plus_prefix_search (p : regex) (pv : option ascii) (s : string) :
  search_from (Seq (Opt (chr "+")) p) pv s = None ->
  search_from p pv s = None.
Proof.
  revert pv. induction s as [| c s IH]; intros pv; cbn [search_from].
  - destruct (match_at (Seq (Opt (chr "+")) p) pv "") eqn:E;
      [discriminate |].
    destruct (match_at p pv "") eqn:E'; [| reflexivity].
    exfalso. apply (@plus_prefix_match p pv ""); [congruence | exact E].
  - destruct (match_at (Seq (Opt (chr "+")) p) pv (String c s)) eqn:E;
      [discriminate |].
    destruct (match_at p pv (String c s)) eqn:E'; [| apply IH].
    exfalso.
    apply (@plus_prefix_match p pv (String c s)); [congruence | exact E].
Qed.

(** X15: the phone of a profile is always found by the first of the two phone
    patterns: wherever the second matches, the first matches too. *)
Theorem X15_phone_by_first_pattern (text : string) :
  phone (_extract_contact_info text)
  = option_map (fun m => strip (m_text m))
      (Re.search (Seq (Opt (chr "+")) (at_least 10 (Cls phone_char))) text).
Proof.
  unfold _extract_contact_info. cbn [phone]. f_equal.
  unfold phone_patterns. cbn [first_found].
  destruct (Re.search (Seq (Opt (chr "+")) (at_least 10 (Cls phone_char)))
              text) eqn:E; [reflexivity |].
  unfold Re.search in *. now rewrite (plus_prefix_search _ _ _ E).
Qed.

(** ** Files *)

(** X16: [parse_resume] raises exactly when the extension, in lower case, is
    neither [.pdf] nor [.docx], or the file is a [.docx] that cannot be
    opened; what it raises is always [ValueError], and the parser is left as
    it was. *)
Theorem X16_parse_resume_raises (d : Decoders) (file_path : string)
    (self : ResumeParser) :
  snd (parse_resume d file_path self) = self
  /\ (forall e, fst (parse_resume d file_path self) = Raise e ->
                e = ValueError)
  /\ (returned (parse_resume d file_path self) = None
      <-> (extension d file_path <> ".pdf"
           /\ extension d file_path <> ".docx")
          \/ (extension d file_path = ".docx"
              /\ forall paragraphs,
                   docx_paragraphs d file_path <> Ok paragraphs)).
Proof.
  unfold parse_resume, returned. fold (extension d file_path).
  destruct (String.eqb_spec (extension d file_path) ".pdf") as [E | E].
  - rewrite E. unfold _parse_pdf, _extract_structure, ret. cbn [fst snd].
    repeat split; try discriminate.
    intros [[H _] | [H _]]; [now elim H | discriminate H].
  - destruct (String.eqb_spec (extension d file_path) ".docx") as [E' | E'].
    + unfold _parse_docx.
      destruct (docx_paragraphs d file_path) as [ps | e0] eqn:Ed;
        unfold _extract_structure, ret, raise; cbn [fst snd].
      * repeat split; try discriminate.
        intros [[_ H] | [_ H]]; [now elim H | now elim (H ps)].
      * repeat split; try congruence.
        intros _. right. split; [exact E' | discriminate].
    + unfold raise. cbn [fst snd]. repeat split; try congruence.
      intros _. left. now split.
Qed.

(** X17: a [.pdf] always gives a profile, whatever the two decoders do; when
    they give no text or only whitespace it is the empty profile. *)
Theorem X17_pdf_always_parsed (d : Decoders) (file_path : string)
    (self : ResumeParser) :
  extension d file_path = ".pdf" ->
  parse_resume d file_path self
  = (Ok (extract_structure (pdf_text d file_path)), self)
  /\ (blank (pdf_text d file_path) = true ->
      parse_resume d file_path self = (Ok empty_profile, self)).
Proof.
  intros E. unfold parse_resume. fold (extension d file_path). rewrite E.
  cbn [String.eqb Ascii.eqb Bool.eqb]. unfold _parse_pdf, _extract_structure, ret.
  split; [reflexivity |].
  intros H. unfold extract_structure. now rewrite (clean_text_blank _ H).
Qed.

Lemma X17_pdf_always_parsed_witness :
  parse_resume (no_pages ".PDF") "cv.PDF"
    (ResumeParser.__init__ (fun _ => None))
  = (Ok empty_profile, ResumeParser.__init__ (fun _ => None)).
Proof.
  apply (@X17_pdf_always_parsed (no_pages ".PDF") "cv.PDF"
           (ResumeParser.__init__ (fun _ => None)));
    reflexivity.
Defined.

(** ** Languages *)

Import LanguageProcessor.

(** X18: the detected language is always one of the two supported ones, and it
    is Arabic exactly when the detector answers one of the three Arabic codes. *)
Theorem X18_detected_language_supported (sv : Services) (text : string) :
  in_list (detect_language sv text) supported_languages = true
  /\ (detect_language sv text = "ar"
      <-> exists lang,
            langdetect_detect sv text = Ok lang
            /\ In lang ["ar"; "ar-SA"; "ar-AE"]).
Proof.
  unfold detect_language.
  destruct (langdetect_detect sv text) as [lang | e].
  - destruct (in_list lang ["en"; "en-US"; "en-GB"]) eqn:Een.
    + split; [reflexivity |]. split; [discriminate |].
      intros [l [Hl Hin]]. injection Hl as <-. exfalso.
      cbn [In] in Hin.
      destruct Hin as [<- | [<- | [<- | []]]]; discriminate Een.
    + destruct (in_list lang ["ar"; "ar-SA"; "ar-AE"]) eqn:Ear.
      * split; [reflexivity |]. split; [| reflexivity].
        intros _. exists lang. split; [reflexivity |].
        unfold in_list in Ear. cbn [existsb] in Ear.
        rewrite !orb_true_iff in Ear. cbn [In].
        destruct Ear as [H | [H | [H | H]]]; try discriminate H;
          apply String.eqb_eq in H; subst lang; auto.
      * split; [reflexivity |]. split; [discriminate |].
        intros [l [Hl Hin]]. injection Hl as <-. exfalso.
        cbn [In] in Hin.
        destruct Hin as [<- | [<- | [<- | []]]]; discriminate Ear.
  - split; [reflexivity |]. split; [discriminate |].
    intros [l [Hl _]]. discriminate Hl.
Qed.

(** X19: a text is returned as it is when it is empty, when the target is not
    a supported language, and when the target is the language detected in it. *)
Theorem X19_translation_fixed_points (sv : Services) (text target : string) :
  translate_text sv "" target = ""
  /\ (in_list target supported_languages = false ->
      translate_text sv text target = text)
  /\ translate_text sv text (detect_language sv text) = text.
Proof.
  split; [reflexivity |]. split.
  - intros H. unfold translate_text. rewrite H.
    now rewrite orb_true_r.
  - unfold translate_text. rewrite String.eqb_refl.
    now destruct (is_empty text || _).
Qed.

Lemma X19_translation_fixed_points_witness :
  translate_text marking_services "hello" "fr" = "hello".
Proof.
  exact (proj1 (proj2 (X19_translation_fixed_points marking_services "hello"
                         "fr")) eq_refl).
Defined.

(** X20: a text that comes back changed was handed to the translator, from the
    language detected in it to a supported target that differs from it. *)
Theorem X20_translation_only_between_supported (sv : Services)
    (text target : string) :
  translate_text sv text target <> text ->
  text <> ""
  /\ in_list target supported_languages = true
  /\ detect_language sv text <> target
  /\ google_translate sv (detect_language sv text) target text
     = Ok (translate_text sv text target).
Proof.
  unfold translate_text. intros H.
  destruct text as [| c text']; [now elim H |].
  cbn [is_empty orb] in *.
  destruct (in_list target supported_languages); cbn [negb] in *;
    [| now elim H].
  destruct (String.eqb_spec (detect_language sv (String c text')) target)
    as [E | E]; [now elim H |].
  destruct (google_translate sv _ target (String c text')) as [t | e];
    [| now elim H].
  repeat split; [discriminate | exact E].
Qed.

Lemma X20_translation_only_between_supported_witness :
  google_translate marking_services
    (detect_language marking_services "hello") "ar" "hello"
  = Ok (translate_text marking_services "hello" "ar").
Proof.
  apply (@X20_translation_only_between_supported marking_services "hello"
           "ar").
  discriminate.
Defined.

Lemma lookup_in_keys (key : string) (d : list (string * string)) :
  In key (map fst d) -> lookup key d <> None.
Proof.
  induction d as [| [k v] d IH]; cbn [map fst In lookup]; [tauto |].
  intros [-> | H].
  - now rewrite String.eqb_refl.
  - destruct (String.eqb k key); [discriminate | now apply IH].
Qed.

(** X21: the table of every language, known or not, has the keys of the
    English one, in the same order and each once; so a score of any size has a
    description in every language. *)
Theorem X21_ui_texts_same_keys (language : string) (score : Z) :
  map fst (get_ui_texts language) = map fst texts_en
  /\ NoDup (map fst texts_en)
  /\ format_score_description score language <> None.
Proof.
  assert (K : map fst (get_ui_texts language) = map fst texts_en).
  { unfold get_ui_texts.
    destruct (String.eqb language "en"); [reflexivity |].
    destruct (String.eqb language "ar"); reflexivity. }
  split; [exact K |]. split.
  - assert (E : nodup string_dec (map fst texts_en) = map fst texts_en)
      by (vm_compute; reflexivity).
    rewrite <- E. apply NoDup_nodup.
  - unfold format_score_description.
    repeat match goal with
           | |- context [if ?b then _ else _] => destruct b
           end;
      apply lookup_in_keys; rewrite K; vm_compute; tauto.
Qed.

(** ** The analysis without a model *)

Import AIAnalyzer.

(** X22: the fallback score is a multiple of five from 50 to 100, the same in
    both languages; it is 50 exactly for a profile with none of the parts
    counted, and a profile with all of them has 100, where the cap cuts the
    sum of 110. There is always a strength and a weakness, and there are three
    suggestions. *)
Theorem X22_fallback_score_range (p : Profile) (language : string) :
  let a := _fallback_analysis p language in
  (50 <= score a <= 100)%Z
  /\ (5 | score a)%Z
  /\ score a = score (_fallback_analysis p "en")
  /\ (score a = 50%Z <-> bare p = true)
  /\ (complete p = true -> score a = 100%Z)
  /\ strengths a <> [] /\ weaknesses a <> []
  /\ List.length (suggestions a) = 3%nat.
Proof.
  assert (S : score (_fallback_analysis p language) = fallback_score p).
  { unfold _fallback_analysis. now destruct (String.eqb language "ar"). }
  cbn zeta. rewrite S.
  assert (R : (50 <= fallback_score p <= 100)%Z
              /\ (5 | fallback_score p)%Z
              /\ (fallback_score p = 50%Z <-> bare p = true)
              /\ (complete p = true -> fallback_score p = 100%Z)).
  { unfold fallback_score, bare, complete.
    destruct (is_empty (name p)), (is_empty (summary p)),
      (nonempty (ResumeParser.experience p)), (nonempty (education p)),
      (nonempty (skills p)), (filled (email (contact_info p))),
      (filled (phone (contact_info p)));
      cbn [negb andb]; cbv zeta;
      (split; [vm_compute; split; discriminate |]);
      (split; [match goal with
               | |- (5 | ?x)%Z =>
                   let y := eval vm_compute in (x / 5)%Z in
                   exists y; vm_compute; reflexivity
               end |]);
      (split; [split; intros H; try reflexivity; vm_compute in H;
               discriminate H |]);
      intros H; try discriminate H; reflexivity. }
  destruct R as [R1 [R2 [R3 R4]]].
  split; [exact R1 |]. split; [exact R2 |]. split.
  { unfold _fallback_analysis. cbn [String.eqb Ascii.eqb Bool.eqb].
    reflexivity. }
  split; [exact R3 |]. split; [exact R4 |].
  unfold _fallback_analysis.
  destruct (String.eqb language "ar"); cbn [strengths weaknesses suggestions];
    destruct (60 <? fallback_score p)%Z, (fallback_score p <? 80)%Z;
    repeat split; discriminate.
Qed.

Lemma X22_fallback_score_range_witness :
  score (_fallback_analysis full_profile "ar") = 100%Z.
Proof.
  refine (proj1 (proj2 (proj2 (proj2 (proj2
            (@X22_fallback_score_range full_profile "ar"))))) _).
  reflexivity.
Defined.

(** ** The two keyword scores *)

Lemma lower_char_idem (c : ascii) : lower_char (lower_char c) = lower_char c.
Proof. destruct c as [[] [] [] [] [] [] [] []]; reflexivity. Qed.

Lemma lower_idem (s : string) : lower (lower s) = lower s.
Proof.
  induction s as [| c s IH]; simpl; [reflexivity |].
  now rewrite lower_char_idem, IH.
Qed.

Lemma word_tokens_lower (s : string) :
  lower s = s -> Forall (fun t => lower t = t) (word_tokens s).
Proof.
  induction s as [| c s IH]; intros H; [constructor |].
  cbn [lower] in H. injection H as Hc Hs. specialize (IH Hs).
  destruct s as [| c' s].
  - cbn [word_tokens]. destruct (is_word c); repeat constructor.
    cbn [lower]. now rewrite Hc.
  - change (word_tokens (String c (String c' s)))
      with (if is_word c
            then if is_word c' then push c (word_tokens (String c' s))
                 else String c "" :: word_tokens (String c' s)
            else word_tokens (String c' s)).
    destruct (is_word c); [| exact IH].
    destruct (is_word c').
    + destruct (word_tokens (String c' s)) as [| t ts]; cbn [push].
      * repeat constructor. cbn [lower]. now rewrite Hc.
      * inversion IH as [| ? ? Ht Hts]; subst.
        constructor; [| exact Hts]. cbn [lower]. now rewrite Hc, Ht.
    + constructor; [| exact IH]. cbn [lower]. now rewrite Hc.
Qed.

Lemma map_fixed (A : Type) (f : A -> A) (l : list A) :
  Forall (fun x => f x = x) l -> map f l = l.
Proof.
  induction 1 as [| x l Hx _ IH]; simpl; [reflexivity |].
  now rewrite Hx, IH.
Qed.

Lemma matched_keywords_count (resume_lower : string) (ks : list string) :
  matched_keywords resume_lower ks = count_in (map lower ks) resume_lower.
Proof.
  unfold matched_keywords, count_in. generalize O.
  induction ks as [| k ks IH]; intros n; [reflexivity |].
  cbn [fold_left map]. apply IH.
Qed.

(** X23: the keyword factor of the matcher is the keyword score of the
    analyzer on the tokens of the posting's requirements in lower case; the
    score of the analyzer lies between 0 and 1 and does not depend on the case
    of the keywords or of the resume. *)
Theorem X23_keyword_scores_agree (resume_text : string) (job : JobPosting)
    (job_keywords : list string) :
  JobMatcher._calculate_keyword_score resume_text job
  = AIAnalyzer.calculate_keyword_score resume_text
      (Re.findall word_pattern (lower (requirements job)))
  /\ 0 <= AIAnalyzer.calculate_keyword_score resume_text job_keywords <= 1
  /\ AIAnalyzer.calculate_keyword_score resume_text (map lower job_keywords)
     = AIAnalyzer.calculate_keyword_score resume_text job_keywords
  /\ AIAnalyzer.calculate_keyword_score (lower resume_text) job_keywords
     = AIAnalyzer.calculate_keyword_score resume_text job_keywords.
Proof.
  split; [| split; [| split]].
  - unfold JobMatcher._calculate_keyword_score,
      AIAnalyzer.calculate_keyword_score.
    rewrite findall_words.
    pose proof (word_tokens_lower (lower_idem (requirements job))) as F.
    destruct (word_tokens (lower (requirements job))) as [| t ts];
      [reflexivity |].
    now rewrite matched_keywords_count, (map_fixed _ F).
  - unfold AIAnalyzer.calculate_keyword_score.
    destruct job_keywords as [| k ks]; [split; discriminate |].
    rewrite matched_keywords_count.
    apply truediv_unit; [simpl; lia |].
    rewrite <- (length_map lower (k :: ks)). apply count_in_le.
  - unfold AIAnalyzer.calculate_keyword_score.
    destruct job_keywords as [| k ks]; [reflexivity |].
    cbn [map]. rewrite !matched_keywords_count.
    change (lower k :: map lower ks) with (map lower (k :: ks)).
    rewrite map_map, !length_map.
    f_equal. f_equal. apply map_ext. intros x. apply lower_idem.
  - unfold AIAnalyzer.calculate_keyword_score.
    destruct job_keywords as [| k ks]; [reflexivity |].
    now rewrite lower_idem.
Qed.

(** ** Patterns that need a digit *)

Section Invariant.

Variable I : string -> Prop.
Hypothesis I_tail : forall c s, I (String c s) -> I s.

Lemma star_loop_invariant (A : Type)
    (step : mstate -> (mstate -> option A) -> option A)
    (k : mstate -> option A) :
  (forall st k', fails I k' -> I (rest st) -> step st k' = None) ->
  fails I k -> forall n, fails I (star_loop step k n).
Proof.
  intros Hstep Hk n. induction n as [| n IH]; intros st Hst;
    cbn [star_loop]; [now apply Hk |].
  rewrite Hstep; [now apply Hk | | exact Hst].
  intros st' Hst'. destruct (progress st st'); [now apply IH | reflexivity].
Qed.

Lemma lazy_loop_invariant (A : Type)
    (step : mstate -> (mstate -> option A) -> option A)
    (k : mstate -> option A) :
  (forall st k', fails I k' -> I (rest st) -> step st k' = None) ->
  fails I k -> forall n, fails I (lazy_loop step k n).
Proof.
  intros Hstep Hk n. induction n as [| n IH]; intros st Hst;
    cbn [lazy_loop]; rewrite (Hk st Hst); [reflexivity |].
  apply Hstep; [| exact Hst].
  intros st' Hst'. destruct (progress st st'); [now apply IH | reflexivity].
Qed.

(** A pattern followed by a continuation that fails wherever the text
    left satisfies [I] fails from every such position: the positions
    that a match passes through are ends of the text it started on. *)
Lemma rmatch_invariant (r : regex) :
  forall (A : Type) (k : mstate -> option A),
    fails I k -> fails I (fun st => rmatch r st k).
Proof.
  induction r as [| p | r1 IH1 r2 IH2 | r1 IH1 r2 IH2 | r1 IH1 | r1 IH1
                  | r1 IH1 | n r1 IH1 | r1 IH1 | |];
    intros A k Hk st Hst; cbn [rmatch].
  - now apply Hk.
  - destruct (rest st) as [| c s'] eqn:E; [reflexivity |].
    destruct (p c); [| reflexivity].
    apply Hk. cbn [rest]. exact (I_tail Hst).
  - apply (IH1 A); [| exact Hst]. intros st' Hst'. now apply (IH2 A).
  - now rewrite (IH1 A k Hk st Hst), (IH2 A k Hk st Hst).
  - apply star_loop_invariant; [| exact Hk | exact Hst].
    intros st' k' Hk' Hst'. now apply (IH1 A).
  - apply lazy_loop_invariant; [| exact Hk | exact Hst].
    intros st' k' Hk' Hst'. now apply (IH1 A).
  - now rewrite (IH1 A k Hk st Hst), (Hk st Hst).
  - apply (IH1 A); [| exact Hst]. intros st' Hst'. now apply Hk.
  - rewrite (Hk st Hst). now destruct (rmatch r1 st _).
  - rewrite (Hk st Hst). now destruct (xorb _ _).
  - rewrite (Hk st Hst). now destruct (_ || _).
Qed.

Lemma search_from_invariant (r : regex) :
  (forall pv s, I s -> match_at r pv s = None) ->
  forall s pv, I s -> search_from r pv s = None.
Proof.
  intros H s. induction s as [| c s IH]; intros pv Hs; cbn [search_from];
    rewrite (H _ _ Hs); [reflexivity |].
  apply IH. exact (I_tail Hs).
Qed.

End Invariant.

Lemma digitless_tail (c : ascii) (s : string) :
  digitless (String c s) = true -> digitless s = true.
Proof. cbn [digitless]. intros H. now apply andb_true_iff in H. Qed.

Lemma plus_digit_fails (A : Type) (k : mstate -> option A) (st : mstate) :
  digitless (rest st) = true -> rmatch (plus digit) st k = None.
Proof.
  unfold plus, digit. cbn [rmatch].
  destruct (rest st) as [| c s]; [reflexivity |].
  cbn [digitless]. now destruct (is_digit c).
Qed.

Lemma is_digit_lower (c : ascii) : is_digit (lower_char c) = is_digit c.
Proof. destruct c as [[] [] [] [] [] [] [] []]; reflexivity. Qed.

Lemma digitless_lower (s : string) : digitless (lower s) = digitless s.
Proof.
  induction s as [| c s IH]; [reflexivity |].
  cbn [lower digitless]. now rewrite is_digit_lower, IH.
Qed.

Lemma experience_pattern_digitless (s : string) :
  digitless s = true -> Re.search experience_pattern s = None.
Proof.
  intros H. unfold Re.search.
  apply (@search_from_invariant (fun s => digitless s = true)
           digitless_tail); [| exact H].
  intros pv s' Hs'. unfold match_at, experience_pattern. cbn [rmatch].
  now apply plus_digit_fails.
Qed.

Lemma score_pattern_digitless (s : string) :
  digitless s = true -> Re.search AIAnalyzer.score_pattern s = None.
Proof.
  intros H. unfold Re.search.
  apply (@search_from_invariant (fun s => digitless s = true)
           digitless_tail); [| exact H].
  intros pv s' Hs'. unfold match_at, AIAnalyzer.score_pattern.
  cbn [rmatch]. rewrite plus_digit_fails by exact Hs'.
  apply (@rmatch_invariant (fun s => digitless s = true) digitless_tail
           (liti "score")); [| exact Hs'].
  intros st Hst.
  apply (@rmatch_invariant (fun s => digitless s = true) digitless_tail
           colons); [| exact Hst].
  intros st' Hst'. now apply plus_digit_fails.
Qed.

(** X24: a posting whose experience text holds no digit gives the experience
    factor 0.5 to every resume. *)
Theorem X24_experience_needs_a_digit (resume_text job_experience : string) :
  digitless job_experience = true ->
  _calculate_experience_match resume_text job_experience = 1 # 2.
Proof.
  intros H. unfold _calculate_experience_match.
  rewrite experience_pattern_digitless; [reflexivity |].
  now rewrite digitless_lower.
Qed.

Lemma X24_experience_needs_a_digit_witness :
  _calculate_experience_match sample_resume "Several years" = 1 # 2.
Proof.
  apply (@X24_experience_needs_a_digit sample_resume "Several years").
  reflexivity.
Defined.

(** ** The reply of the model read as text *)

(** X25: the score read from a reply of at most 4300 characters lies between 0
    and 100, whatever number the reply gives; it is 50 when the reply holds no
    digit. No entry of the three lists is blank or begins or ends with
    whitespace, and the reply is kept as it is. *)
Theorem X25_reply_score_clamped (text language : string) :
  (String.length text <= max_str_digits)%nat ->
  let a := _extract_from_text text language in
  (0 <= score a <= 100)%Z
  /\ (digitless text = true -> score a = 50%Z)
  /\ Forall (fun t => t <> "" /\ strip t = t)
       (strengths a ++ weaknesses a ++ suggestions a)%list
  /\ ai_response a = text.
Proof.
  intros _ a.
  assert (S : score a = extracted_score text).
  { unfold a, _extract_from_text. now destruct (String.eqb language "ar"). }
  assert (L : forall p prev,
             Forall (fun t => t <> "" /\ strip t = t) prev ->
             Forall (fun t => t <> "" /\ strip t = t)
               (section_lines p text prev)).
  { intros p prev Hprev. unfold section_lines.
    destruct (Re.search p text); [apply stripped_clean | exact Hprev]. }
  rewrite S. split; [| split; [| split]].
  - unfold extracted_score. destruct (Re.search score_pattern text); lia.
  - intros H. unfold extracted_score.
    now rewrite score_pattern_digitless.
  - unfold a, _extract_from_text.
    destruct (String.eqb language "ar");
      cbn [strengths weaknesses suggestions];
      rewrite !Forall_app; repeat split; apply L; constructor.
  - unfold a, _extract_from_text. now destruct (String.eqb language "ar").
Qed.

Lemma X25_reply_score_clamped_witness :
  (0 <= score (_extract_from_text "Overall: 120/100" "en") <= 100)%Z.
Proof.
  apply (@X25_reply_score_clamped "Overall: 120/100" "en").
  unfold max_str_digits. cbn [String.length]. lia.
Defined.

(** ** What the normalised text has lost *)

Lemma clean_text_kept (raw : string) (c : ascii) :
  mem c (_clean_text raw) = true -> clean_keep c = true.
Proof.
  unfold _clean_text. intros H. apply strip_mem, sub_class_mem in H.
  now apply negb_false_iff in H.
Qed.

Lemma clean_text_lost (raw : string) (c : ascii) :
  clean_keep c = false -> mem c (_clean_text raw) = false.
Proof.
  intros Hc. destruct (mem c (_clean_text raw)) eqn:E; [| reflexivity].
  apply clean_text_kept in E. congruence.
Qed.

Lemma without_tail (c d : ascii) (s : string) :
  mem c (String d s) = false -> mem c s = false.
Proof. cbn [mem]. intros H. now apply orb_false_iff in H. Qed.

Lemma chr_fails (A : Type) (c : ascii) (k : mstate -> option A)
    (st : mstate) :
  mem c (rest st) = false -> rmatch (chr c) st k = None.
Proof.
  unfold chr. cbn [rmatch]. destruct (rest st) as [| d s]; [reflexivity |].
  cbn [mem]. intros H. apply orb_false_iff in H. destruct H as [H _].
  rewrite Ascii.eqb_sym. now rewrite H.
Qed.

Lemma email_needs_at (s : string) :
  mem "@" s = false -> Re.search email_pattern s = None.
Proof.
  intros H. unfold Re.search.
  apply (@search_from_invariant (fun s => mem "@" s = false)
           (@without_tail "@")); [| exact H].
  intros pv s' Hs'. unfold match_at, email_pattern.
  change (rmatch (Seq WordB (Seq ?p ?q)) ?st ?k)
    with (rmatch (Seq WordB p) st (fun st' => rmatch q st' k)).
  apply (@rmatch_invariant (fun s => mem "@" s = false)
           (@without_tail "@")); [| exact Hs'].
  intros st Hst. cbn [rmatch]. now apply chr_fails.
Qed.

Lemma linkedin_needs_slash (s : string) :
  mem "/" s = false -> Re.search linkedin_pattern s = None.
Proof.
  intros H. unfold Re.search.
  apply (@search_from_invariant (fun s => mem "/" s = false)
           (@without_tail "/")); [| exact H].
  intros pv s' Hs'. unfold match_at, linkedin_pattern.
  change (lit "linkedin.com/in/")
    with (Seq (chr "l") (Seq (chr "i") (Seq (chr "n") (Seq (chr "k")
          (Seq (chr "e") (Seq (chr "d") (Seq (chr "i") (Seq (chr "n")
          (Seq (chr ".") (Seq (chr "c") (Seq (chr "o") (Seq (chr "m")
          (Seq (chr "/") (lit "in/")))))))))))))).
  cbn [rmatch].
  do 12 (apply (@rmatch_invariant (fun s => mem "/" s = false)
                  (@without_tail "/") (chr _)); [| assumption];
         intros ? ?).
  now apply chr_fails.
Qed.

(** X26: no profile has an email or a LinkedIn address: the normalised
    text, in which they are looked for, has lost every [@] and every [/]. *)
Theorem X26_no_email_in_a_profile (raw : string) :
  email (contact_info (extract_structure raw)) = None
  /\ linkedin (contact_info (extract_structure raw)) = None
  /\ mem "@" (raw_text (extract_structure raw)) = false
  /\ mem "/" (raw_text (extract_structure raw)) = false.
Proof.
  unfold extract_structure. cbn [contact_info raw_text].
  unfold _extract_contact_info. cbn [email linkedin].
  assert (Hat : mem "@" (_clean_text raw) = false)
    by (apply clean_text_lost; reflexivity).
  assert (Hsl : mem "/" (_clean_text raw) = false)
    by (apply clean_text_lost; reflexivity).
  rewrite (email_needs_at _ Hat), (linkedin_needs_slash _ Hsl).
  repeat split; assumption.
Qed.

(** ** One line, one record *)

Lemma mem_substring (c : ascii) (a n : nat) (s : string) :
  mem c (substring a n s) = true -> mem c s = true.
Proof.
  revert a n. induction s as [| d s IH]; intros a n; [now destruct a, n |].
  destruct a as [| a]; [destruct n as [| n] |]; cbn [substring mem].
  - discriminate.
  - intros H. apply orb_true_iff in H. apply orb_true_iff.
    destruct H as [H | H]; [now left | right; now apply (IH 0%nat n)].
  - intros H. apply orb_true_iff. right. now apply (IH a n).
Qed.

Section Drawn.

Variable text : string.

Lemma star_loop_drawn (A : Type)
    (step : mstate -> (mstate -> option A) -> option A)
    (k : mstate -> option A) :
  (forall st k' x, drawn_from text st -> step st k' = Some x ->
                   reaches text k' x) ->
  forall n st x,
    drawn_from text st -> star_loop step k n st = Some x -> reaches text k x.
Proof.
  intros Hstep n. induction n as [| n IH]; intros st x Hst;
    cbn [star_loop]; [intros H; now exists st |].
  destruct (step st _) as [y |] eqn:E; [| intros H; now exists st].
  intros H. injection H as ->.
  destruct (Hstep _ _ _ Hst E) as [st' [Hst' H']].
  destruct (progress st st'); [| discriminate].
  destruct (IH _ _ Hst' H') as [st'' [H1 H2]]. now exists st''.
Qed.

Lemma lazy_loop_drawn (A : Type)
    (step : mstate -> (mstate -> option A) -> option A)
    (k : mstate -> option A) :
  (forall st k' x, drawn_from text st -> step st k' = Some x ->
                   reaches text k' x) ->
  forall n st x,
    drawn_from text st -> lazy_loop step k n st = Some x -> reaches text k x.
Proof.
  intros Hstep n. induction n as [| n IH]; intros st x Hst;
    cbn [lazy_loop]; destruct (k st) as [y |] eqn:E;
    try (intros H; injection H as ->; now exists st); [discriminate |].
  intros H. destruct (Hstep _ _ _ Hst H) as [st' [Hst' H']].
  destruct (progress st st'); [| discriminate].
  destruct (IH _ _ Hst' H') as [st'' [H1 H2]]. now exists st''.
Qed.

(** Where a pattern hands over to its continuation, the text left and
    the groups captured are made of characters of the text it started
    on. *)
Lemma rmatch_drawn (r : regex) :
  forall (A : Type) (k : mstate -> option A) (st : mstate) (x : A),
    drawn_from text st -> rmatch r st k = Some x -> reaches text k x.
Proof.
  induction r as [| p | r1 IH1 r2 IH2 | r1 IH1 r2 IH2 | r1 IH1 | r1 IH1
                  | r1 IH1 | n r1 IH1 | r1 IH1 | |];
    intros A k st x Hst; cbn [rmatch].
  - intros H. now exists st.
  - destruct (rest st) as [| c s'] eqn:E; [discriminate |].
    destruct (p c); [| discriminate].
    intros H. eexists. split; [| exact H].
    destruct Hst as [H1 H2]. split; [| exact H2].
    cbn [rest]. intros d Hd. apply H1. rewrite E. cbn [mem].
    rewrite Hd. apply orb_true_r.
  - intros H. destruct (IH1 _ _ _ _ Hst H) as [st' [Hst' H']].
    now apply (IH2 _ _ _ _ Hst' H').
  - destruct (rmatch r1 st k) as [y |] eqn:E.
    + intros H. injection H as ->. now apply (IH1 _ _ _ _ Hst E).
    + now apply IH2.
  - apply star_loop_drawn; [| exact Hst].
    intros st' k' y Hst' H. now apply (IH1 _ _ _ _ Hst' H).
  - apply lazy_loop_drawn; [| exact Hst].
    intros st' k' y Hst' H. now apply (IH1 _ _ _ _ Hst' H).
  - destruct (rmatch r1 st k) as [y |] eqn:E.
    + intros H. injection H as ->. now apply (IH1 _ _ _ _ Hst E).
    + intros H. now exists st.
  - intros H. destruct (IH1 _ _ _ _ Hst H) as [st' [Hst' H']].
    eexists. split; [| exact H'].
    destruct Hst as [H1 H2], Hst' as [H3 H4]. split; [exact H3 |].
    cbn [caps]. constructor; [| exact H4].
    cbn [snd]. intros c Hc. apply H1.
    unfold consumed in Hc. now apply mem_substring in Hc.
  - destruct (rmatch r1 st _); [| discriminate]. intros H. now exists st.
  - destruct (xorb _ _); [| discriminate]. intros H. now exists st.
  - destruct (_ || _); [| discriminate]. intros H. now exists st.
Qed.

Lemma search_from_drawn (r : regex) (s : string) :
  forall pv m,
    within text s -> search_from r pv s = Some m ->
    Forall (fun p => within text (snd p)) (m_caps m).
Proof.
  induction s as [| c s IH]; intros pv m Hs; cbn [search_from].
  - destruct (match_at r pv "") as [m' |] eqn:E; [| discriminate].
    intros H. injection H as ->. unfold match_at in E.
    apply rmatch_drawn in E; [| split; [exact Hs | constructor]].
    destruct E as [st' [[_ H1] H2]]. injection H2 as <-. exact H1.
  - destruct (match_at r pv (String c s)) as [m' |] eqn:E.
    + intros H. injection H as ->. unfold match_at in E.
      apply rmatch_drawn in E; [| split; [exact Hs | constructor]].
      destruct E as [st' [[_ H1] H2]]. injection H2 as <-. exact H1.
    + apply IH. intros d Hd. apply Hs. cbn [mem]. rewrite Hd.
      apply orb_true_r.
Qed.

Lemma first_section_drawn (patterns : list regex) (body : string) :
  first_section patterns text = Some body -> within text body.
Proof.
  unfold first_section.
  induction patterns as [| p ps IH]; cbn [first_found option_map];
    [discriminate |].
  destruct (Re.search p text) as [m |] eqn:E; [| exact IH].
  cbn [option_map]. intros H. injection H as <-.
  unfold Re.search in E.
  apply search_from_drawn in E; [| intros c Hc; exact Hc].
  unfold group1, group.
  destruct (find _ (m_caps m)) as [q |] eqn:F; [| intros c; discriminate].
  apply find_some in F. destruct F as [F _].
  rewrite Forall_forall in E. now apply E.
Qed.

End Drawn.

Lemma segment_one_line (trigger : regex) (line : string) :
  segment trigger [line] None []
  = if opens trigger (strip line) then [(strip line, None)] else [].
Proof.
  cbn [segment]. unfold opens.
  destruct (is_empty (strip line)); [reflexivity |].
  cbn [negb andb]. now destruct (Re.matches trigger (strip line)).
Qed.

Lemma section_one_line (patterns : list regex) (raw body : string) :
  first_section patterns (_clean_text raw) = Some body ->
  split_on NL body = [body].
Proof.
  intros H. apply split_on_absent.
  destruct (mem NL body) eqn:E; [| reflexivity].
  apply (first_section_drawn _ _ H) in E.
  now rewrite clean_text_no_newline in E.
Qed.

(** X27: the sections of a profile are read from the normalised text, which
    is one line; so a profile has at most one experience, one education and
    one project, none of them with a description or an institution, and
    the title or degree of each is its whole section, stripped. *)
Theorem X27_one_record_per_section (raw : string) :
  let p := extract_structure raw in
  let text := raw_text p in
  ResumeParser.experience p
  = match first_section exp_patterns text with
    | Some body =>
        if opens experience_trigger (strip body)
        then [{| ResumeParser.title := strip body;
                 ResumeParser.description := None |}]
        else []
    | None => []
    end
  /\ education p
     = match first_section edu_patterns text with
       | Some body =>
           if opens education_trigger (strip body)
           then [{| degree := strip body; institution := None |}]
           else []
       | None => []
       end
  /\ projects p
     = match first_section proj_patterns text with
       | Some body =>
           if opens project_trigger (strip body)
           then [{| ResumeParser.title := strip body;
                    ResumeParser.description := None |}]
           else []
       | None => []
       end
  /\ (List.length (ResumeParser.experience p) <= 1)%nat
  /\ (List.length (education p) <= 1)%nat
  /\ (List.length (projects p) <= 1)%nat.
Proof.
  cbn zeta. unfold extract_structure.
  cbn [ResumeParser.experience education projects raw_text].
  unfold _extract_experience, _extract_education, _extract_projects,
    _parse_experience_entries, _parse_education_entries,
    _parse_project_entries.
  destruct (first_section exp_patterns (_clean_text raw)) as [b1 |] eqn:E1;
    destruct (first_section edu_patterns (_clean_text raw)) as [b2 |] eqn:E2;
    destruct (first_section proj_patterns (_clean_text raw)) as [b3 |] eqn:E3;
    rewrite ?(section_one_line _ _ E1), ?(section_one_line _ _ E2),
      ?(section_one_line _ _ E3), ?segment_one_line;
    repeat match goal with
           | |- context [opens ?t ?l] => destruct (opens t l)
           end;
    cbn [map entry_of edu_entry_of fst snd List.length];
    repeat split; lia.
Qed.
